(** * ZSTD adapter of ZFS (module/zstd/zstd.c): level map, block header,
      compress/decompress entry points and the pooled allocator.

    The development is a shallow embedding of zstd.c.  Integers are [Z] with
    the C wrap-around written out, buffers are lists of bytes, the Zstandard
    library is an interface ([ZSTD_lib]) and the kernel heap is an oracle. *)

From Stdlib Require Import ZArith Lia.
From coqutil Require Import Z.bitblast.
From stdpp Require Import base option list gmap.

Local Open Scope Z_scope.

(** ** C integer types (LP64) *)

Definition UINT32_MOD : Z := 2 ^ 32.
Definition SIZE_MOD : Z := 2 ^ 64.

(** Conversion to [uint32_t]. *)
Definition to_uint32 (x : Z) : Z := x mod UINT32_MOD.

(** Conversion of a 32-bit pattern to [int32_t] (two's complement). *)
Definition to_int32 (x : Z) : Z :=
  let u := to_uint32 x in if u <? 2 ^ 31 then u else u - UINT32_MOD.

(** Arithmetic on [size_t] wraps modulo 2^64. *)
Definition to_size_t (x : Z) : Z := x mod SIZE_MOD.

(** [sizeof (bufsize)] and [sizeof (levelcookie)], both 32-bit. *)
Definition sizeof_bufsize : Z := 4.
Definition sizeof_levelcookie : Z := 4.

(** ** sys/zio_compress.h *)

Definition ZIO_COMPLEVEL_INHERIT : Z := 0.
Definition ZIO_COMPLEVEL_DEFAULT : Z := 255.

(** ** Logical levels *)

(** Modelled from the spec: [enum zio_zstd_levels] is declared in sys/zio.h,
    which is not among the sources.  The spec gives a closed enumeration with
    an inherit sentinel, the positive levels 1..19, the fast levels
    1..10, 20..100 by tens, 500 and 1000, and one value meaning default; the
    enumerators below are those zstd.c names. *)
Inductive zio_zstd_levels : Set :=
  | ZIO_ZSTDLVL_INHERIT
  | ZIO_ZSTDLVL_1 | ZIO_ZSTDLVL_2 | ZIO_ZSTDLVL_3 | ZIO_ZSTDLVL_4
  | ZIO_ZSTDLVL_5 | ZIO_ZSTDLVL_6 | ZIO_ZSTDLVL_7 | ZIO_ZSTDLVL_8
  | ZIO_ZSTDLVL_9 | ZIO_ZSTDLVL_10 | ZIO_ZSTDLVL_11 | ZIO_ZSTDLVL_12
  | ZIO_ZSTDLVL_13 | ZIO_ZSTDLVL_14 | ZIO_ZSTDLVL_15 | ZIO_ZSTDLVL_16
  | ZIO_ZSTDLVL_17 | ZIO_ZSTDLVL_18 | ZIO_ZSTDLVL_19
  | ZIO_ZSTDLVL_FAST_1 | ZIO_ZSTDLVL_FAST_2 | ZIO_ZSTDLVL_FAST_3
  | ZIO_ZSTDLVL_FAST_4 | ZIO_ZSTDLVL_FAST_5 | ZIO_ZSTDLVL_FAST_6
  | ZIO_ZSTDLVL_FAST_7 | ZIO_ZSTDLVL_FAST_8 | ZIO_ZSTDLVL_FAST_9
  | ZIO_ZSTDLVL_FAST_10 | ZIO_ZSTDLVL_FAST_20 | ZIO_ZSTDLVL_FAST_30
  | ZIO_ZSTDLVL_FAST_40 | ZIO_ZSTDLVL_FAST_50 | ZIO_ZSTDLVL_FAST_60
  | ZIO_ZSTDLVL_FAST_70 | ZIO_ZSTDLVL_FAST_80 | ZIO_ZSTDLVL_FAST_90
  | ZIO_ZSTDLVL_FAST_100 | ZIO_ZSTDLVL_FAST_500 | ZIO_ZSTDLVL_FAST_1000
  | ZIO_ZSTDLVL_DEFAULT.

#[global] Instance zio_zstd_levels_eq_dec : EqDecision zio_zstd_levels.
Proof. solve_decision. Defined.

(** Modelled from the spec: the macro [ZIO_ZSTD_LEVEL_DEFAULT] of sys/zio.h,
    the system default positive level, "historically 3". *)
Definition ZIO_ZSTD_LEVEL_DEFAULT : zio_zstd_levels := ZIO_ZSTDLVL_3.

(** Numeric value of [ZIO_ZSTD_LEVEL_DEFAULT] when it is assigned to an
    [int32_t] (a positive level is numerically its cookie). *)
Definition ZIO_ZSTD_LEVEL_DEFAULT_value : Z := 3.

(** ** The level map *)

Record levelmap : Set := Levelmap { cookie : Z; level : zio_zstd_levels }.

(** The table [fastlevels].  The cookie column of the first nineteen rows is
    written [ZIO_ZSTDLVL_k] in the source; the spec states that positive
    cookies are numerically identical to the positive logical levels, so it
    is [k] here. *)
Definition fastlevels : list levelmap :=
  [ Levelmap 1 ZIO_ZSTDLVL_1; Levelmap 2 ZIO_ZSTDLVL_2;
    Levelmap 3 ZIO_ZSTDLVL_3; Levelmap 4 ZIO_ZSTDLVL_4;
    Levelmap 5 ZIO_ZSTDLVL_5; Levelmap 6 ZIO_ZSTDLVL_6;
    Levelmap 7 ZIO_ZSTDLVL_7; Levelmap 8 ZIO_ZSTDLVL_8;
    Levelmap 9 ZIO_ZSTDLVL_9; Levelmap 10 ZIO_ZSTDLVL_10;
    Levelmap 11 ZIO_ZSTDLVL_11; Levelmap 12 ZIO_ZSTDLVL_12;
    Levelmap 13 ZIO_ZSTDLVL_13; Levelmap 14 ZIO_ZSTDLVL_14;
    Levelmap 15 ZIO_ZSTDLVL_15; Levelmap 16 ZIO_ZSTDLVL_16;
    Levelmap 17 ZIO_ZSTDLVL_17; Levelmap 18 ZIO_ZSTDLVL_18;
    Levelmap 19 ZIO_ZSTDLVL_19;
    Levelmap (-1) ZIO_ZSTDLVL_FAST_1; Levelmap (-2) ZIO_ZSTDLVL_FAST_2;
    Levelmap (-3) ZIO_ZSTDLVL_FAST_3; Levelmap (-4) ZIO_ZSTDLVL_FAST_4;
    Levelmap (-5) ZIO_ZSTDLVL_FAST_5; Levelmap (-6) ZIO_ZSTDLVL_FAST_6;
    Levelmap (-7) ZIO_ZSTDLVL_FAST_7; Levelmap (-8) ZIO_ZSTDLVL_FAST_8;
    Levelmap (-9) ZIO_ZSTDLVL_FAST_9; Levelmap (-10) ZIO_ZSTDLVL_FAST_10;
    Levelmap (-20) ZIO_ZSTDLVL_FAST_20; Levelmap (-30) ZIO_ZSTDLVL_FAST_30;
    Levelmap (-40) ZIO_ZSTDLVL_FAST_40; Levelmap (-50) ZIO_ZSTDLVL_FAST_50;
    Levelmap (-60) ZIO_ZSTDLVL_FAST_60; Levelmap (-70) ZIO_ZSTDLVL_FAST_70;
    Levelmap (-80) ZIO_ZSTDLVL_FAST_80; Levelmap (-90) ZIO_ZSTDLVL_FAST_90;
    Levelmap (-100) ZIO_ZSTDLVL_FAST_100;
    Levelmap (-500) ZIO_ZSTDLVL_FAST_500;
    Levelmap (-1000) ZIO_ZSTDLVL_FAST_1000 ].

(** The [for] loop of [zstd_cookie_to_enum]: first row whose cookie matches. *)
Fixpoint scan_cookie (tbl : list levelmap) (lvl : Z) : option zio_zstd_levels :=
  match tbl with
  | [] => None
  | e :: tbl' =>
      if cookie e =? lvl then Some (level e) else scan_cookie tbl' lvl
  end.

(** The [for] loop of [zstd_enum_to_cookie]: first row whose level matches. *)
Fixpoint scan_level (tbl : list levelmap) (elevel : zio_zstd_levels)
  : option Z :=
  match tbl with
  | [] => None
  | e :: tbl' =>
      if bool_decide (level e = elevel) then Some (cookie e)
      else scan_level tbl' elevel
  end.

(** On a miss the source logs with [printk] and returns the default level. *)
Definition zstd_cookie_to_enum (lvl : Z) : zio_zstd_levels :=
  match scan_cookie fastlevels lvl with
  | Some l => l
  | None => ZIO_ZSTD_LEVEL_DEFAULT
  end.

(** On a miss the source logs with [printk] and returns the literal 3. *)
Definition zstd_enum_to_cookie (elevel : zio_zstd_levels) : Z :=
  match scan_level fastlevels elevel with
  | Some c => c
  | None => 3
  end.


(** The level a frame carries for a requested level: the sentinels stand
    for the default level. *)
Definition effective_level (n : zio_zstd_levels) : zio_zstd_levels :=
  match n with
  | ZIO_ZSTDLVL_INHERIT | ZIO_ZSTDLVL_DEFAULT => ZIO_ZSTD_LEVEL_DEFAULT
  | _ => n
  end.


(** ** Byte order and buffers *)

(** A buffer is the sequence of bytes that starts at a pointer. *)
Definition buffer : Type := list Z.

Definition byte_n (x : Z) (n : Z) : Z := Z.land (Z.shiftr x (8 * n)) 255.

Definition BSWAP_32 (x : Z) : Z :=
  Z.lor (Z.shiftl (byte_n x 0) 24)
    (Z.lor (Z.shiftl (byte_n x 1) 16)
       (Z.lor (Z.shiftl (byte_n x 2) 8) (byte_n x 3))).

(** Modelled from the spec: the macro [BE_32] of sys/byteorder.h, absent from
    the sources; the on-disk form is big-endian and the value is byte-swapped
    on little-endian hosts. *)
Definition BE_32 (big_endian : bool) (x : Z) : Z :=
  if big_endian then x else BSWAP_32 x.

(** The bytes of a [uint32_t] object as the host lays them out. *)
Definition uint32_bytes (big_endian : bool) (x : Z) : list Z :=
  if big_endian then [byte_n x 3; byte_n x 2; byte_n x 1; byte_n x 0]
  else [byte_n x 0; byte_n x 1; byte_n x 2; byte_n x 3].

(** The four bytes of a 32-bit value, most significant first. *)
Definition be_bytes (x : Z) : list Z :=
  [byte_n x 3; byte_n x 2; byte_n x 1; byte_n x 0].

(** [len] bytes at offset [off]; no result when the range leaves the object
    (undefined behaviour in C). *)
Definition load_bytes (buf : buffer) (off len : Z) : option (list Z) :=
  if bool_decide (0 <= off /\ 0 <= len /\ off + len <= Z.of_nat (length buf))
  then Some (take (Z.to_nat len) (drop (Z.to_nat off) buf))
  else None.

(** Overwrite [bs] at offset [off]; no result when the range leaves the
    object. *)
Definition store_bytes (buf : buffer) (off : Z) (bs : list Z) : option buffer :=
  if bool_decide (0 <= off
                  /\ off + Z.of_nat (length bs) <= Z.of_nat (length buf))
  then Some (take (Z.to_nat off) buf ++ bs
               ++ drop (Z.to_nat off + length bs) buf)
  else None.

(** Modelled from the spec: the macro [BE_IN32] of sys/byteorder.h, a
    byte-wise big-endian read that does not depend on the host. *)
Definition BE_IN32 (buf : buffer) (off : Z) : option Z :=
  match load_bytes buf off 4 with
  | Some [b0; b1; b2; b3] =>
      Some (Z.lor (Z.shiftl b0 24)
              (Z.lor (Z.shiftl b1 16) (Z.lor (Z.shiftl b2 8) b3)))
  | _ => None
  end.

(** The bytes from [off] on, at most [len] of them: what is there to read for
    a callee that is handed [&buf[off]] and the length [len]. *)
Definition sub_buffer (buf : buffer) (off len : Z) : list Z :=
  take (Z.to_nat len) (drop (Z.to_nat off) buf).

(** ** The Zstandard library, as zstd.c uses it *)

(** The codec is an external library.  A call returns the [size_t] result
    code and the bytes the codec deposited at the start of its destination. *)
Class ZSTD_lib : Type := {
  ZSTD_isError : Z -> bool;
  ZSTD_compressCCtx :
    forall (dstCapacity : Z) (src : list Z) (srcSize : Z)
      (compressionLevel : Z), Z * list Z;
  ZSTD_decompressDCtx :
    forall (dstCapacity : Z) (src : list Z) (srcSize : Z), Z * list Z;
  ZSTD_estimateDCtxSize : Z
}.

(** What the adapter relies on: a result that is not an error is the number
    of bytes written, within the capacity given, and a frame decodes to the
    bytes it was made from whenever the destination can hold them. *)
Class ZSTD_contract (lib : ZSTD_lib) : Prop := {
  compress_written : forall cap src n lvl r out,
    0 <= cap ->
    ZSTD_compressCCtx cap src n lvl = (r, out) ->
    Z.of_nat (length out) <= cap
    /\ (ZSTD_isError r = false -> r = Z.of_nat (length out));
  decompress_compress : forall cap src lvl r out dcap,
    ZSTD_compressCCtx cap src (Z.of_nat (length src)) lvl = (r, out) ->
    ZSTD_isError r = false ->
    Z.of_nat (length src) <= dcap ->
    ZSTD_decompressDCtx dcap out r = (Z.of_nat (length src), src)
    /\ ZSTD_isError (Z.of_nat (length src)) = false
}.

(** ** Execution of an entry point *)

(** Calls into the codec library, in the order they are made. *)
Inductive event : Set :=
  | ev_createCCtx
  | ev_compressCCtx (dstOffset dstCapacity srcSize compressionLevel : Z)
  | ev_freeCCtx
  | ev_createDCtx
  | ev_decompressDCtx (dstCapacity srcOffset srcSize : Z)
  | ev_freeDCtx.

(** The destination buffer [d_start] and the log of library calls. *)
Record machine : Type := Machine { dst : buffer; trace : list event }.

(** Whether the custom allocators can serve a compression, respectively a
    decompression, context: [ZSTD_createCCtx_advanced (zstd_malloc)] and
    [ZSTD_createDCtx_advanced (zstd_dctx_malloc)] return NULL otherwise. *)
Record kernel : Set := Kernel { cctx_memory : bool; dctx_memory : bool }.

(** State and fault monad: no result stands for an access outside a buffer. *)
Definition M (A : Type) : Type := machine -> option (A * machine).

Definition ret {A} (a : A) : M A := fun s => Some (a, s).

Definition bind {A B} (m : M A) (k : A -> M B) : M B :=
  fun s => match m s with
           | Some (a, s') => k a s'
           | None => None
           end.

Definition lift {A} (o : option A) : M A :=
  fun s => match o with Some a => Some (a, s) | None => None end.

Definition log (e : event) : M unit :=
  fun s => Some (tt, Machine (dst s) (trace s ++ [e])).

Definition store (off : Z) (bs : list Z) : M unit :=
  fun s => match store_bytes (dst s) off bs with
           | Some d => Some (tt, Machine d (trace s))
           | None => None
           end.

Declare Scope zstd_scope.
Delimit Scope zstd_scope with zstd.
Notation "'do' x <- m ; k" := (bind m (fun x => k))
  (at level 10, x name, m at level 100, k at level 200) : zstd_scope.
Notation "'exec' m ; k" := (bind m (fun _ => k))
  (at level 10, m at level 100, k at level 200) : zstd_scope.

(** ** The entry points of zstd.c *)

Section EntryPoints.
Context {lib : ZSTD_lib}.

(** Host byte order. *)
Variable big_endian : bool.

(** Numeric value of the enumerator [ZIO_ZSTDLVL_DEFAULT] (sys/zio.h). *)
Variable ZIO_ZSTDLVL_DEFAULT_value : Z.

Variable k : kernel.

Local Open Scope zstd_scope.

(** A [uint32_t] store through a cast of [&dest[off]]. *)
Definition store_uint32 (off : Z) (v : Z) : M unit :=
  store off (uint32_bytes big_endian v).

Definition ZSTD_createCCtx_advanced : M bool :=
  exec log ev_createCCtx; ret (cctx_memory k).

Definition ZSTD_createDCtx_advanced : M bool :=
  exec log ev_createDCtx; ret (dctx_memory k).

Definition ZSTD_freeCCtx : M unit := log ev_freeCCtx.
Definition ZSTD_freeDCtx : M unit := log ev_freeDCtx.

(** [ZSTD_compressCCtx (cctx, &dest[off], cap, src, srcSize, level)]. *)
Definition call_compressCCtx (off cap : Z) (src : buffer) (srcSize lvl : Z)
  : M Z :=
  exec log (ev_compressCCtx off cap srcSize lvl);
  let '(r, out) :=
    ZSTD_compressCCtx cap (sub_buffer src 0 srcSize) srcSize lvl in
  exec store off out;
  ret r.

(** [ZSTD_decompressDCtx (dctx, d_start, cap, &src[off], srcSize)]. *)
Definition call_decompressDCtx (cap : Z) (src : buffer) (off srcSize : Z)
  : M Z :=
  exec log (ev_decompressDCtx cap off srcSize);
  let '(r, out) :=
    ZSTD_decompressDCtx cap (sub_buffer src off srcSize) srcSize in
  exec store 0 out;
  ret r.

(** The level handed to the codec: the two comparisons after the ASSERTs. *)
Definition compress_levelcookie (n : zio_zstd_levels) : Z :=
  let levelcookie := zstd_enum_to_cookie n in
  let levelcookie :=
    if levelcookie =? ZIO_COMPLEVEL_DEFAULT
    then ZIO_ZSTD_LEVEL_DEFAULT_value else levelcookie in
  if levelcookie =? ZIO_ZSTDLVL_DEFAULT_value
  then ZIO_ZSTD_LEVEL_DEFAULT_value else levelcookie.

(** [zstd_compress (s_start, d_start, s_len, d_len, n)]; [d_start] is the
    [dst] of the machine.  The ASSERT3U lines are compiled out of
    production builds and are not part of the model. *)
Definition zstd_compress (s_start : buffer) (s_len d_len : Z)
    (n : zio_zstd_levels) : M Z :=
  let levelcookie := compress_levelcookie n in
  do cctx <- ZSTD_createCCtx_advanced;
  if negb cctx then ret s_len
  else
    do c_len <- call_compressCCtx (sizeof_bufsize + sizeof_levelcookie)
                  (to_size_t (d_len - sizeof_bufsize - sizeof_levelcookie))
                  s_start s_len levelcookie;
    exec ZSTD_freeCCtx;
    if ZSTD_isError c_len then ret s_len
    else
      let bufsize := to_uint32 c_len in
      exec store_uint32 0 (BE_32 big_endian bufsize);
      exec store_uint32 sizeof_bufsize
             (BE_32 big_endian (to_uint32 levelcookie));
      ret (to_size_t (c_len + sizeof_bufsize + sizeof_levelcookie)).

(** The out-parameter [uint8_t *level]: [None] is the NULL pointer,
    [Some v] a cell that holds [v]. *)
Definition set_level (level : option zio_zstd_levels)
    (zstdlevel : zio_zstd_levels) : option zio_zstd_levels :=
  match level with
  | Some _ => Some zstdlevel
  | None => None
  end.

(** [zstd_get_level (s_start, s_len, level)]: the return value and the
    cell behind [level]. *)
Definition zstd_get_level (s_start : buffer) (s_len : Z)
    (level : option zio_zstd_levels)
  : option (Z * option zio_zstd_levels) :=
  match BE_IN32 s_start sizeof_levelcookie with
  | Some levelcookie =>
      let zstdlevel := zstd_cookie_to_enum (to_int32 levelcookie) in
      Some (0, set_level level zstdlevel)
  | None => None
  end.

(** [zstd_decompress_level (s_start, d_start, s_len, d_len, level)]. *)
Definition zstd_decompress_level (s_start : buffer) (s_len d_len : Z)
    (level : option zio_zstd_levels) : M (Z * option zio_zstd_levels) :=
  do bufsize <- lift (BE_IN32 s_start 0);
  do word <- lift (BE_IN32 s_start sizeof_bufsize);
  let levelcookie := to_int32 word in
  let zstdlevel := zstd_cookie_to_enum levelcookie in
  if s_len <? bufsize + sizeof_bufsize then ret (1, level)
  else
    do dctx <- ZSTD_createDCtx_advanced;
    if negb dctx then ret (1, level)
    else
      do result <- call_decompressDCtx d_len s_start
                     (sizeof_bufsize + sizeof_levelcookie) bufsize;
      exec ZSTD_freeDCtx;
      if ZSTD_isError result then ret (1, level)
      else ret (0, set_level level zstdlevel).

(** [zstd_decompress (s_start, d_start, s_len, d_len, n)]. *)
Definition zstd_decompress (s_start : buffer) (s_len d_len : Z) (n : Z)
  : M Z :=
  do r <- zstd_decompress_level s_start s_len d_len None;
  ret (fst r).

End EntryPoints.

(** ** A codec to run the entry points on concrete buffers *)

(** [ERROR (name)] of error_private.h: the negated code as a [size_t]. *)
Definition ZSTD_ERROR (code : Z) : Z := to_size_t (- code).

(** [ERR_isError]: a result above [ERROR (maxCode)], [maxCode] being 120. *)
Definition run_isError (code : Z) : bool := ZSTD_ERROR 120 <? code.

(** Encodes a non-empty run of one byte value, shorter than 256, as the two
    bytes length and value; every other input is refused with
    [dstSize_tooSmall] (70). *)
Definition run_compress (cap : Z) (src : list Z) (n : Z) (lvl : Z)
  : Z * list Z :=
  match src with
  | b :: _ =>
      if bool_decide (n = Z.of_nat (length src) /\ n < 256
                      /\ src = replicate (length src) b /\ 2 <= cap)
      then (2, [n; b])
      else (ZSTD_ERROR 70, [])
  | [] => (ZSTD_ERROR 70, [])
  end.

(** Decodes the two bytes back into the run; [corruption_detected] (20) on
    anything else. *)
Definition run_decompress (cap : Z) (src : list Z) (n : Z) : Z * list Z :=
  match src with
  | [len; b] =>
      if bool_decide (n = 2 /\ 0 <= len <= cap)
      then (len, replicate (Z.to_nat len) b)
      else (ZSTD_ERROR 70, [])
  | _ => (ZSTD_ERROR 20, [])
  end.

#[global] Instance run_codec : ZSTD_lib := {|
  ZSTD_isError := run_isError;
  ZSTD_compressCCtx := run_compress;
  ZSTD_decompressDCtx := run_decompress;
  ZSTD_estimateDCtxSize := 4000
|}.

(** A codec that treats its destination as working space, which the library
    is free to do: the frame is the one of [run_compress], and two more
    bytes are left behind the length it reports when the capacity allows. *)
Definition untidy_compress (cap : Z) (src : list Z) (n : Z) (lvl : Z)
  : Z * list Z :=
  let '(r, out) := run_compress cap src n lvl in
  if run_isError r then (r, out)
  else if 4 <=? cap then (r, out ++ [85; 85]) else (r, out).

Definition untidy_codec : ZSTD_lib := {|
  ZSTD_isError := run_isError;
  ZSTD_compressCCtx := untidy_compress;
  ZSTD_decompressDCtx := run_decompress;
  ZSTD_estimateDCtxSize := 4000
|}.

(** Buffers for the examples: sixteen zero bytes, sixteen distinct bytes, a
    destination filled with 0xAA; a kernel with memory for both contexts. *)
Definition zeros16 : buffer := replicate 16%nat 0.
Definition ramp16 : buffer :=
  [1; 2; 3; 4; 5; 6; 7; 8; 9; 10; 11; 12; 13; 14; 15; 16].
Definition scratch16 : buffer := replicate 16%nat 170.
Definition roomy : kernel := Kernel true true.

(** Frames for the examples.  [frame_cookie20]: a two-byte payload under
    the cookie 20, which the level map does not list.  [frame_short]: the
    header announces eight payload bytes, four are there. *)
Definition frame_cookie20 : buffer := [0; 0; 0; 2; 0; 0; 0; 20; 16; 0].
Definition frame_short : buffer := [0; 0; 0; 8; 0; 0; 0; 3; 16; 7; 0; 0].

(** ** The allocator of zstd.c *)

Inductive zstd_kmem_type : Set :=
  | ZSTD_KMEM_UNKNOWN
  | ZSTD_KMEM_DEFAULT
  | ZSTD_KMEM_POOL
  | ZSTD_KMEM_DCTX.

#[global] Instance zstd_kmem_type_eq_dec : EqDecision zstd_kmem_type.
Proof. solve_decision. Defined.

Definition ZSTD_POOL_TIMEOUT : Z := 60 * 2.

(** The two pool arrays. *)
Inductive mempool : Set := mempool_cctx | mempool_dctx.

#[global] Instance mempool_eq_dec : EqDecision mempool.
Proof. solve_decision. Defined.

(** [struct zstd_pool]; [pool_barrier] tells whether the mutex is held. *)
Record zstd_pool : Set := Pool {
  pool_mem : option Z;
  pool_size : Z;
  pool_barrier : bool;
  pool_timeout : Z
}.

(** [struct zstd_kmem], the record at the head of every buffer; the slot a
    pooled buffer belongs to is named by its array and index. *)
Record zstd_kmem : Set := Kmem {
  kmem_type : zstd_kmem_type;
  kmem_size : Z;
  kmem_pool : option (mempool * nat)
}.

(** [struct zstd_fallback_mem]. *)
Record zstd_fallback_mem : Set := Fallback {
  mem_size : Z;
  fallback_mem : option Z;
  fallback_barrier : bool
}.

(** [sizeof (struct zstd_kmem)] on LP64: an enum, a [size_t] and a pointer. *)
Definition sizeof_zstd_kmem : Z := 24.

(** The globals of zstd.c, the headers that live in allocated memory, and
    the kernel heap: [heap] lists the results of the coming [vmem_alloc]
    calls (NULL once it is exhausted), [released] the [kmem_free] calls. *)
Record zstd_state : Type := State {
  pool_count : Z;
  zstd_dctx_fallback : zstd_fallback_mem;
  zstd_mempool_cctx : option (list zstd_pool);
  zstd_mempool_dctx : option (list zstd_pool);
  kmem : gmap Z zstd_kmem;
  heap : list (option Z);
  released : list (Z * Z)
}.

Definition ZSTD_POOL_MAX (st : zstd_state) : Z := pool_count st.

Definition get_mempool (which : mempool) (st : zstd_state)
  : option (list zstd_pool) :=
  match which with
  | mempool_cctx => zstd_mempool_cctx st
  | mempool_dctx => zstd_mempool_dctx st
  end.

Definition set_mempool (which : mempool) (slots : list zstd_pool)
    (st : zstd_state) : zstd_state :=
  match which with
  | mempool_cctx =>
      State (pool_count st) (zstd_dctx_fallback st) (Some slots)
        (zstd_mempool_dctx st) (kmem st) (heap st) (released st)
  | mempool_dctx =>
      State (pool_count st) (zstd_dctx_fallback st) (zstd_mempool_cctx st)
        (Some slots) (kmem st) (heap st) (released st)
  end.

Definition set_kmem (m : gmap Z zstd_kmem) (st : zstd_state) : zstd_state :=
  State (pool_count st) (zstd_dctx_fallback st) (zstd_mempool_cctx st)
    (zstd_mempool_dctx st) m (heap st) (released st).

Definition set_fallback (f : zstd_fallback_mem) (st : zstd_state)
  : zstd_state :=
  State (pool_count st) f (zstd_mempool_cctx st) (zstd_mempool_dctx st)
    (kmem st) (heap st) (released st).

(** [vmem_alloc (size, flags)]: the next answer of the heap. *)
Definition vmem_alloc (st : zstd_state) : option Z * zstd_state :=
  match heap st with
  | [] => (None, st)
  | r :: h =>
      (r, State (pool_count st) (zstd_dctx_fallback st) (zstd_mempool_cctx st)
            (zstd_mempool_dctx st) (kmem st) h (released st))
  end.

(** [kmem_free (ptr, size)]. *)
Definition kmem_free (ptr sz : Z) (st : zstd_state) : zstd_state :=
  State (pool_count st) (zstd_dctx_fallback st) (zstd_mempool_cctx st)
    (zstd_mempool_dctx st) (delete ptr (kmem st)) (heap st)
    (released st ++ [(ptr, sz)]).

(** The tail of an iteration of the first loop: a buffer whose deadline has
    passed is freed and the slot cleared, then the mutex is released. *)
Definition expire_slot (now : Z) (p : zstd_pool) (st : zstd_state)
  : zstd_pool * zstd_state :=
  match pool_mem p with
  | Some m =>
      if pool_timeout p <? now
      then (Pool None 0 false 0, kmem_free m (pool_size p) st)
      else (Pool (pool_mem p) (pool_size p) false (pool_timeout p), st)
  | None => (Pool (pool_mem p) (pool_size p) false (pool_timeout p), st)
  end.

(** One iteration of the first loop of [zstd_mempool_alloc]; [chosen] is the
    local [mem], [now] the value of [gethrestime_sec ()]. *)
Definition first_pass_visit (now sz : Z) (chosen : option Z) (p : zstd_pool)
    (st : zstd_state) : option Z * zstd_pool * zstd_state :=
  if pool_barrier p then (chosen, p, st)
  else
    match chosen, pool_mem p with
    | None, Some m =>
        if sz <=? pool_size p
        then (Some m,
              Pool (Some m) (pool_size p) true (now + ZSTD_POOL_TIMEOUT), st)
        else let '(p', st') := expire_slot now p st in (chosen, p', st')
    | _, _ => let '(p', st') := expire_slot now p st in (chosen, p', st')
    end.

(** The first loop: seek a preallocated slot and free obsolete ones. *)
Fixpoint first_pass (now sz : Z) (slots : list zstd_pool) (chosen : option Z)
    (st : zstd_state) : option Z * list zstd_pool * zstd_state :=
  match slots with
  | [] => (chosen, [], st)
  | p :: rest =>
      let '(chosen1, p1, st1) := first_pass_visit now sz chosen p st in
      let '(chosen2, rest2, st2) := first_pass now sz rest chosen1 st1 in
      (chosen2, p1 :: rest2, st2)
  end.

(** The second loop: fill the first free slot that can be locked.  No result
    when the loop runs to its end; otherwise the value returned from inside
    the loop, NULL included. *)
Fixpoint second_pass (which : mempool) (now sz : Z) (i : nat)
    (slots : list zstd_pool) (st : zstd_state)
  : option (option Z * list zstd_pool * zstd_state) :=
  match slots with
  | [] => None
  | p :: rest =>
      let next :=
        match second_pass which now sz (S i) rest st with
        | Some (r, rest', st') => Some (r, p :: rest', st')
        | None => None
        end in
      if pool_barrier p then next
      else
        match pool_mem p with
        | Some _ => next
        | None =>
            let '(mem, st1) := vmem_alloc st in
            match mem with
            | Some m =>
                Some (Some m,
                      Pool (Some m) sz true (now + ZSTD_POOL_TIMEOUT) :: rest,
                      set_kmem (<[m := Kmem ZSTD_KMEM_POOL sz (Some (which, i))]>
                                  (kmem st1)) st1)
            | None => Some (None, p :: rest, st1)
            end
        end
  end.

(** [zstd_mempool_alloc (zstd_mempool, size)].  The arrays have
    [ZSTD_POOL_MAX] entries, so both loops visit every slot in order. *)
Definition zstd_mempool_alloc (which : mempool) (sz now : Z) (st : zstd_state)
  : option Z * zstd_state :=
  match get_mempool which st with
  | None => (None, st)
  | Some slots =>
      let '(chosen, slots1, st1) := first_pass now sz slots None st in
      let st1 := set_mempool which slots1 st1 in
      match chosen with
      | Some m => (Some m, st1)
      | None =>
          match second_pass which now sz 0 slots1 st1 with
          | Some (r, slots2, st2) => (r, set_mempool which slots2 st2)
          | None =>
              let '(mem, st3) := vmem_alloc st1 in
              match mem with
              | Some m =>
                  (Some m,
                   set_kmem (<[m := Kmem ZSTD_KMEM_DEFAULT sz None]> (kmem st3))
                     st3)
              | None => (None, st3)
              end
          end
      end
  end.

(** [zstd_mempool_free (z)]: release the barrier of the owning slot.  No
    result when [z->pool] is NULL or names no slot. *)
Definition zstd_mempool_free (z : Z) (st : zstd_state) : option zstd_state :=
  match kmem st !! z with
  | Some (Kmem _ _ (Some (which, i))) =>
      match get_mempool which st with
      | Some slots =>
          match slots !! i with
          | Some p =>
              Some (set_mempool which
                      (<[i := Pool (pool_mem p) (pool_size p) false
                                (pool_timeout p)]> slots) st)
          | None => None
          end
      | None => None
      end
  | _ => None
  end.

(** [zstd_alloc (opaque, size)]. *)
Definition zstd_alloc (sz now : Z) (st : zstd_state) : option Z * zstd_state :=
  let nbytes := to_size_t (sizeof_zstd_kmem + sz) in
  let '(z, st1) := zstd_mempool_alloc mempool_cctx nbytes now st in
  match z with
  | None => (None, st1)
  | Some z => (Some (z + sizeof_zstd_kmem), st1)
  end.

(** The [struct zstd_kmem] read at [z]; memory from [vmem_zalloc] reads as
    zeroes. *)
Definition kmem_at (st : zstd_state) (z : Z) : zstd_kmem :=
  default (Kmem ZSTD_KMEM_UNKNOWN 0 None) (kmem st !! z).

(** [zstd_dctx_alloc (opaque, size)].  No result when the caller would wait
    for the fallback barrier, which another consumer holds. *)
Definition zstd_dctx_alloc (sz now : Z) (st : zstd_state)
  : option (option Z * zstd_state) :=
  let nbytes := to_size_t (sizeof_zstd_kmem + sz) in
  let '(z, st1) := zstd_mempool_alloc mempool_dctx nbytes now st in
  match z with
  | Some z => Some (Some (z + sizeof_zstd_kmem), st1)
  | None =>
      let '(z, st2) := vmem_alloc st1 in
      match z with
      | Some z =>
          Some (Some (z + sizeof_zstd_kmem),
                set_kmem (<[z := Kmem ZSTD_KMEM_DEFAULT nbytes None]> (kmem st2))
                  st2)
      | None =>
          let fb := zstd_dctx_fallback st2 in
          if fallback_barrier fb then None
          else
            let st3 :=
              set_fallback (Fallback (mem_size fb) (fallback_mem fb) true) st2 in
            match fallback_mem fb with
            | None => Some (None, st3)
            | Some z =>
                Some (Some (z + sizeof_zstd_kmem),
                      set_kmem
                        (<[z := Kmem ZSTD_KMEM_DCTX nbytes
                                  (kmem_pool (kmem_at st3 z))]> (kmem st3))
                        st3)
            end
      end
  end.

(** [zstd_free (opaque, ptr)]. *)
Definition zstd_free (ptr : Z) (st : zstd_state) : option zstd_state :=
  let z := ptr - sizeof_zstd_kmem in
  match kmem st !! z with
  | None => None
  | Some h =>
      match kmem_type h with
      | ZSTD_KMEM_DEFAULT => Some (kmem_free z (kmem_size h) st)
      | ZSTD_KMEM_POOL => zstd_mempool_free z st
      | ZSTD_KMEM_DCTX =>
          let fb := zstd_dctx_fallback st in
          Some (set_fallback (Fallback (mem_size fb) (fallback_mem fb) false) st)
      | ZSTD_KMEM_UNKNOWN => Some st
      end
  end.

(** Modelled from the spec: the macro [P2ROUNDUP] of sys/sysmacros.h, absent
    from the sources; the size is rounded up to page size. *)
Definition P2ROUNDUP (x align : Z) : Z := align * ((x + align - 1) / align).

Section Init.
Context {lib : ZSTD_lib}.

(** The page size and the number of processors of the host. *)
Variable PAGESIZE : Z.
Variable boot_ncpus : Z.

(** [zstd_mempool_init]: two zeroed arrays of [ZSTD_POOL_MAX] slots, every
    barrier initialised. *)
Definition zstd_mempool_init (st : zstd_state) : zstd_state :=
  let slots := replicate (Z.to_nat (ZSTD_POOL_MAX st)) (Pool None 0 false 0) in
  State (pool_count st) (zstd_dctx_fallback st) (Some slots) (Some slots)
    (kmem st) (heap st) (released st).

(** [create_fallback_mem (mem, size)]. *)
Definition create_fallback_mem (sz : Z) (st : zstd_state) : zstd_state :=
  let '(m, st1) := vmem_alloc st in
  let st2 := set_fallback (Fallback sz m false) st1 in
  match m with
  | Some z => set_kmem (<[z := Kmem ZSTD_KMEM_UNKNOWN 0 None]> (kmem st2)) st2
  | None => st2
  end.

Definition zstd_meminit (st : zstd_state) : zstd_state :=
  create_fallback_mem
    (P2ROUNDUP (ZSTD_estimateDCtxSize + sizeof_zstd_kmem) PAGESIZE)
    (zstd_mempool_init st).

(** [zstd_init]: the pool size is the processor count times four. *)
Definition zstd_init (st : zstd_state) : zstd_state :=
  zstd_meminit
    (State (boot_ncpus * 4) (zstd_dctx_fallback st) (zstd_mempool_cctx st)
       (zstd_mempool_dctx st) (kmem st) (heap st) (released st)).

End Init.

(** The module before [zstd_init]: [pool_count] is 16, the other globals are
    zero; [h] is what the heap will answer. *)
Definition boot_state (h : list (option Z)) : zstd_state :=
  State 16 (Fallback 0 None false) None None ∅ h [].

(** ** Tear-down *)

(** [release_pool (pool)]: wait for the barrier, destroy it and free the
    buffer of the slot.  No result while a consumer holds the barrier;
    [kmem_free] of a NULL buffer does nothing. *)
Definition release_pool (p : zstd_pool) (st : zstd_state)
  : option zstd_state :=
  if pool_barrier p then None
  else
    match pool_mem p with
    | Some m => Some (kmem_free m (pool_size p) st)
    | None => Some st
    end.

(** The loop of [zstd_mempool_deinit]: slot [i] of the compression pool, then
    slot [i] of the decompression pool.  Both arrays have [ZSTD_POOL_MAX]
    entries; no result if one of them ends before the other. *)
Fixpoint release_pools (cs ds : list zstd_pool) (st : zstd_state)
  : option zstd_state :=
  match cs, ds with
  | [], [] => Some st
  | c :: cs', d :: ds' =>
      match release_pool c st with
      | Some st1 =>
          match release_pool d st1 with
          | Some st2 => release_pools cs' ds' st2
          | None => None
          end
      | None => None
      end
  | _, _ => None
  end.

(** [zstd_mempool_deinit]: release every slot, free the two arrays and reset
    the two pointers.  No result when an array pointer is NULL. *)
Definition zstd_mempool_deinit (st : zstd_state) : option zstd_state :=
  match zstd_mempool_cctx st, zstd_mempool_dctx st with
  | Some cs, Some ds =>
      match release_pools cs ds st with
      | Some st1 =>
          Some (State (pool_count st1) (zstd_dctx_fallback st1) None None
                  (kmem st1) (heap st1) (released st1))
      | None => None
      end
  | _, _ => None
  end.

(** [zstd_fini]: free the fallback slab, destroy its barrier, tear the pools
    down.  The fields of [zstd_dctx_fallback] are not reset. *)
Definition zstd_fini (st : zstd_state) : option zstd_state :=
  let fb := zstd_dctx_fallback st in
  zstd_mempool_deinit
    (match fallback_mem fb with
     | Some z => kmem_free z (mem_size fb) st
     | None => st
     end).

(** * Properties *)

(** ** The level map *)

Lemma scan_level_cookie_in tbl x c :
  scan_level tbl x = Some c -> c ∈ cookie <$> tbl.
Proof.
  induction tbl as [|e tbl IH]; simpl; [discriminate|].
  case_bool_decide.
  - intros [= <-]. apply list_elem_of_here.
  - intros H'. apply list_elem_of_further, IH, H'.
Qed.

(** In a table without repeated cookies the two scans are inverse. *)
Lemma scan_cookie_of_scan_level tbl x c :
  NoDup (cookie <$> tbl) ->
  scan_level tbl x = Some c -> scan_cookie tbl c = Some x.
Proof.
  induction tbl as [|e tbl IH]; simpl; [discriminate|].
  intros Hnd. apply NoDup_cons in Hnd as [Hfresh Hnd].
  case_bool_decide as Hlvl.
  - intros [= <-]. rewrite Z.eqb_refl. by rewrite Hlvl.
  - intros Hscan. destruct (Z.eqb_spec (cookie e) c) as [Heq|_].
    + destruct Hfresh. rewrite Heq. eapply scan_level_cookie_in, Hscan.
    + by apply IH.
Qed.

Lemma fastlevels_cookies_NoDup : NoDup (cookie <$> fastlevels).
Proof. apply (bool_decide_unpack _). by vm_compute. Qed.

(** Every level but the two sentinels has a row. *)
Lemma fastlevels_covers x :
  x <> ZIO_ZSTDLVL_INHERIT -> x <> ZIO_ZSTDLVL_DEFAULT ->
  exists c, scan_level fastlevels x = Some c.
Proof. intros Hi Hd. destruct x; try congruence; by eexists. Qed.

Lemma cookie_to_enum_to_cookie n :
  zstd_cookie_to_enum (zstd_enum_to_cookie n) = effective_level n.
Proof.
  destruct (decide (n = ZIO_ZSTDLVL_INHERIT)) as [->|Hi]; [done|].
  destruct (decide (n = ZIO_ZSTDLVL_DEFAULT)) as [->|Hd]; [done|].
  destruct (fastlevels_covers n Hi Hd) as [c Hc].
  unfold zstd_cookie_to_enum, zstd_enum_to_cookie. rewrite Hc.
  rewrite (scan_cookie_of_scan_level _ _ _ fastlevels_cookies_NoDup Hc).
  by destruct n.
Qed.

(** A cookie produced by the map is a table cookie or the literal 3: it lies
    between -1000 and 19 and is not zero. *)
Lemma zstd_enum_to_cookie_range n :
  -1000 <= zstd_enum_to_cookie n <= 19 /\ zstd_enum_to_cookie n <> 0.
Proof. destruct n; vm_compute; intuition congruence. Qed.


(** A cookie that is in no row is not found. *)
Lemma scan_cookie_unlisted tbl c :
  c ∉ cookie <$> tbl -> scan_cookie tbl c = None.
Proof.
  induction tbl as [|e tbl IH]; simpl; [done|].
  intros Hnot. apply not_elem_of_cons in Hnot as [Hne Hnot].
  destruct (Z.eqb_spec (cookie e) c) as [Heq|_]; [congruence|]. by apply IH.
Qed.

(** In a table without repeated cookies a row is found by its cookie. *)
Lemma scan_cookie_listed tbl c l :
  NoDup (cookie <$> tbl) -> Levelmap c l ∈ tbl -> scan_cookie tbl c = Some l.
Proof.
  induction tbl as [|e tbl IH]; simpl; [by intros _ ?%elem_of_nil|].
  intros Hnd Hin. apply NoDup_cons in Hnd as [Hfresh Hnd].
  apply elem_of_cons in Hin as [<-|Hin].
  - simpl. by rewrite Z.eqb_refl.
  - destruct (Z.eqb_spec (cookie e) c) as [Heq|_]; [|by apply IH].
    destruct Hfresh. rewrite Heq.
    apply (list_elem_of_fmap_2 cookie) in Hin. exact Hin.
Qed.

(** C6: for every logical level [x] other than INHERIT and DEFAULT,
    [zstd_cookie_to_enum (zstd_enum_to_cookie x)] is [x]. *)
Theorem level_map_bijective_on_mapped_set x :
  x <> ZIO_ZSTDLVL_INHERIT -> x <> ZIO_ZSTDLVL_DEFAULT ->
  zstd_cookie_to_enum (zstd_enum_to_cookie x) = x.
Proof.
  intros Hi Hd. rewrite cookie_to_enum_to_cookie.
  destruct x; try reflexivity; congruence.
Qed.

Lemma level_map_bijective_on_mapped_set_witness :
  ZIO_ZSTDLVL_FAST_3 <> ZIO_ZSTDLVL_INHERIT
  /\ ZIO_ZSTDLVL_FAST_3 <> ZIO_ZSTDLVL_DEFAULT
  /\ zstd_cookie_to_enum (zstd_enum_to_cookie ZIO_ZSTDLVL_FAST_3)
      = ZIO_ZSTDLVL_FAST_3.
Proof.
  split; [discriminate|]. split; [discriminate|].
  apply (level_map_bijective_on_mapped_set ZIO_ZSTDLVL_FAST_3); discriminate.
Defined.

(** ** Bytes and buffers *)

Lemma byte_n_range x n : 0 <= byte_n x n < 256.
Proof.
  unfold byte_n. change 255 with (Z.ones 8).
  rewrite Z.land_ones by lia. apply Z.mod_pos_bound. lia.
Qed.

(** Reassembling the big-endian bytes of a 32-bit value gives it back. *)
Lemma be32_of_bytes x :
  0 <= x < 2 ^ 32 ->
  Z.lor (Z.shiftl (byte_n x 3) 24)
    (Z.lor (Z.shiftl (byte_n x 2) 16)
       (Z.lor (Z.shiftl (byte_n x 1) 8) (byte_n x 0))) = x.
Proof.
  intros Hx. rewrite <- (Z.mod_small x (2 ^ 32)) at 5 by lia.
  unfold byte_n. change 255 with (Z.ones 8). simpl (8 * _).
  Z.bitblast.
Qed.

Lemma byte_n_BSWAP_32 x n :
  0 <= n < 4 -> byte_n (BSWAP_32 x) n = byte_n x (3 - n).
Proof.
  intros Hn.
  assert (n = 0 \/ n = 1 \/ n = 2 \/ n = 3) as [->|[->|[->| ->]]] by lia;
    unfold BSWAP_32, byte_n; change 255 with (Z.ones 8);
    simpl (8 * _); simpl (3 - _); Z.bitblast.
Qed.

(** Endian stability: on either host the store of [BE_32 x] leaves the
    big-endian bytes of [x] in memory. *)
Lemma stored_big_endian big_endian x :
  uint32_bytes big_endian (BE_32 big_endian x) = be_bytes x.
Proof.
  destruct big_endian; [reflexivity|].
  unfold uint32_bytes, BE_32, be_bytes.
  by rewrite !byte_n_BSWAP_32 by lia.
Qed.

Lemma be_bytes_length x : length (be_bytes x) = 4%nat.
Proof. reflexivity. Qed.

Lemma store_bytes_Some buf off bs :
  0 <= off -> off + Z.of_nat (length bs) <= Z.of_nat (length buf) ->
  store_bytes buf off bs
  = Some (take (Z.to_nat off) buf ++ bs ++ drop (Z.to_nat off + length bs) buf).
Proof. intros. unfold store_bytes. by rewrite bool_decide_true. Qed.

Lemma store_bytes_inv buf off bs buf' :
  store_bytes buf off bs = Some buf' ->
  0 <= off /\ off + Z.of_nat (length bs) <= Z.of_nat (length buf)
  /\ buf' = take (Z.to_nat off) buf ++ bs ++ drop (Z.to_nat off + length bs) buf.
Proof.
  unfold store_bytes. case_bool_decide as Hr; [|discriminate].
  intros [= <-]. tauto.
Qed.

Lemma store_bytes_length buf off bs buf' :
  store_bytes buf off bs = Some buf' -> length buf' = length buf.
Proof.
  intros (H0 & Hle & ->)%store_bytes_inv.
  rewrite !length_app, length_take, length_drop. lia.
Qed.

(** The header words go in front of a payload stored at offset 8: the three
    stores of [zstd_compress] leave header, payload and the old tail. *)
Lemma frame_layout d out h0 h1 d1 d2 d3 :
  length h0 = 4%nat -> length h1 = 4%nat ->
  store_bytes d 8 out = Some d1 ->
  store_bytes d1 0 h0 = Some d2 ->
  store_bytes d2 4 h1 = Some d3 ->
  d3 = h0 ++ h1 ++ out ++ drop (8 + length out) d.
Proof.
  intros Hh0 Hh1 (_ & Hle1 & ->)%store_bytes_inv
    (_ & _ & ->)%store_bytes_inv (_ & _ & ->)%store_bytes_inv.
  change (Z.to_nat 8) with 8%nat. change (Z.to_nat 4) with 4%nat.
  change (Z.to_nat 0) with 0%nat. rewrite Hh0, Hh1.
  assert (length (take 8 d) = 8%nat) as H8 by (rewrite length_take; lia).
  remember (take 8 d) as p8 eqn:Ep.
  remember (drop (8 + length out) d) as tl eqn:Et.
  clear Ep Et. rewrite take_0, app_nil_l. change (0 + 4)%nat with 4%nat.
  rewrite (take_app_length' h0) by done.
  rewrite (drop_app_add' h0) by done.
  rewrite drop_drop. change (4 + 4)%nat with 8%nat.
  by rewrite (drop_app_length' p8) by done.
Qed.

Lemma BE_IN32_is_Some buf off :
  0 <= off -> off + 4 <= Z.of_nat (length buf) -> is_Some (BE_IN32 buf off).
Proof.
  intros H0 Hle. unfold BE_IN32, load_bytes.
  rewrite bool_decide_true by lia. change (Z.to_nat 4) with 4%nat.
  assert (length (take 4 (drop (Z.to_nat off) buf)) = 4%nat) as Hl
    by (rewrite length_take, length_drop; lia).
  destruct (take 4 (drop (Z.to_nat off) buf)) as [|a [|b [|c [|e [|? ?]]]]];
    simpl in Hl; try lia. by eexists.
Qed.

Lemma BE_IN32_be_bytes x rest :
  0 <= x < 2 ^ 32 -> BE_IN32 (be_bytes x ++ rest) 0 = Some x.
Proof.
  intros Hx. unfold BE_IN32, load_bytes.
  rewrite bool_decide_true by (rewrite length_app, be_bytes_length; lia).
  simpl. by rewrite be32_of_bytes.
Qed.

Lemma BE_IN32_skip h buf :
  length h = 4%nat -> BE_IN32 (h ++ buf) 4 = BE_IN32 buf 0.
Proof.
  intros Hh. unfold BE_IN32, load_bytes. change (Z.to_nat 4) with 4%nat.
  change (Z.to_nat 0) with 0%nat. rewrite (drop_app_length' h) by done.
  rewrite drop_0, length_app, Hh.
  destruct (decide (4 <= Z.of_nat (length buf))).
  - by rewrite !bool_decide_true by lia.
  - by rewrite !bool_decide_false by lia.
Qed.


(** The value of an [int32_t] survives the passage through [uint32_t]. *)
Lemma to_int32_to_uint32 c :
  - 2 ^ 31 <= c < 2 ^ 31 -> to_int32 (to_uint32 c) = c.
Proof.
  intros Hc. unfold to_int32, to_uint32, UINT32_MOD.
  rewrite Zmod_mod. destruct (Z.ltb_spec (c mod 2 ^ 32) (2 ^ 31));
    destruct (decide (0 <= c)).
  - apply Z.mod_small. lia.
  - rewrite <- (Z.mod_add c 1) in H by lia. rewrite Z.mod_small in H; lia.
  - rewrite Z.mod_small in H; lia.
  - rewrite <- (Z.mod_add c 1) by lia. rewrite Z.mod_small; lia.
Qed.

Lemma to_uint32_range x : 0 <= to_uint32 x < 2 ^ 32.
Proof. apply Z.mod_pos_bound. reflexivity. Qed.

(** ** The run codec honours the contract *)

Lemma run_isError_small n : 0 <= n < 2 ^ 32 -> run_isError n = false.
Proof.
  intros Hn. unfold run_isError, ZSTD_ERROR, to_size_t, SIZE_MOD.
  apply Z.ltb_ge.
  assert ((- (120)) mod 2 ^ 64 = 2 ^ 64 - 120) as -> by reflexivity. lia.
Qed.

#[global] Instance run_codec_contract : ZSTD_contract run_codec.
Proof.
  split.
  - intros cap src n lvl r out Hcap. simpl. unfold run_compress.
    destruct src as [|b src]; [intros [= <- <-]; simpl; split; [lia|done]|].
    case_bool_decide as Hc; intros [= <- <-]; simpl; split; try lia; done.
  - intros cap src lvl r out dcap. simpl. unfold run_compress.
    destruct src as [|b src]; [intros [= <- <-]; done|].
    case_bool_decide as Hc; intros [= <- <-]; [|done].
    destruct Hc as (_ & H256 & Hrun & _). intros _ Hd.
    unfold run_decompress. cbn [length] in *.
    rewrite bool_decide_true by lia.
    rewrite Nat2Z.id, <- Hrun. split; [done|].
    apply run_isError_small. lia.
Qed.

(** ** The entry points, statement by statement *)

Section EntryPointFacts.
Context {lib : ZSTD_lib}.
Variable big_endian : bool.
Variable ZIO_ZSTDLVL_DEFAULT_value : Z.
Variable k : kernel.

(** [zstd_compress] as one expression over the buffer. *)
Lemma zstd_compress_unfold s_start s_len d_len n m :
  zstd_compress big_endian ZIO_ZSTDLVL_DEFAULT_value k s_start s_len d_len n m =
  let levelcookie := compress_levelcookie ZIO_ZSTDLVL_DEFAULT_value n in
  let cap := to_size_t (d_len - 4 - 4) in
  if cctx_memory k then
    let '(c_len, out) :=
      ZSTD_compressCCtx cap (sub_buffer s_start 0 s_len) s_len levelcookie in
    let t := ((trace m ++ [ev_createCCtx])
                ++ [ev_compressCCtx 8 cap s_len levelcookie]) ++ [ev_freeCCtx] in
    match store_bytes (dst m) 8 out with
    | None => None
    | Some d1 =>
        if ZSTD_isError c_len then Some (s_len, Machine d1 t)
        else
          match store_bytes d1 0 (be_bytes (to_uint32 c_len)) with
          | None => None
          | Some d2 =>
              match store_bytes d2 4 (be_bytes (to_uint32 levelcookie)) with
              | None => None
              | Some d3 => Some (to_size_t (c_len + 4 + 4), Machine d3 t)
              end
          end
    end
  else Some (s_len, Machine (dst m) (trace m ++ [ev_createCCtx])).
Proof.
  unfold zstd_compress, ZSTD_createCCtx_advanced, call_compressCCtx,
    ZSTD_freeCCtx, store_uint32, bind, log, ret, store,
    sizeof_bufsize, sizeof_levelcookie.
  cbn [dst trace]. destruct (cctx_memory k); cbn [negb]; [|done].
  change (4 + 4) with 8.
  destruct (ZSTD_compressCCtx _ _ _ _) as [c_len out]. cbn [dst trace].
  destruct (store_bytes (dst m) 8 out) as [d1|]; [|done]. cbn [dst trace].
  destruct (ZSTD_isError c_len); [done|]. cbn [dst trace].
  rewrite !stored_big_endian.
  destruct (store_bytes d1 0 _) as [d2|]; [|done]. cbn [dst trace].
  by destruct (store_bytes d2 4 _) as [d3|].
Qed.

(** [zstd_decompress_level] as one expression, once the two header words
    are read. *)
Lemma zstd_decompress_level_unfold s_start s_len d_len level m bufsize word :
  BE_IN32 s_start 0 = Some bufsize ->
  BE_IN32 s_start 4 = Some word ->
  zstd_decompress_level k s_start s_len d_len level m =
  if s_len <? bufsize + 4 then Some ((1, level), m)
  else if dctx_memory k then
    let '(result, out) :=
      ZSTD_decompressDCtx d_len (sub_buffer s_start 8 bufsize) bufsize in
    let t := ((trace m ++ [ev_createDCtx])
                ++ [ev_decompressDCtx d_len 8 bufsize]) ++ [ev_freeDCtx] in
    match store_bytes (dst m) 0 out with
    | None => None
    | Some d =>
        Some (if ZSTD_isError result then (1, level)
              else (0, set_level level (zstd_cookie_to_enum (to_int32 word))),
              Machine d t)
    end
  else Some ((1, level), Machine (dst m) (trace m ++ [ev_createDCtx])).
Proof.
  intros H0 H4.
  unfold zstd_decompress_level, ZSTD_createDCtx_advanced,
    call_decompressDCtx, ZSTD_freeDCtx, bind, log, ret, store, lift,
    sizeof_bufsize, sizeof_levelcookie.
  rewrite H0, H4. destruct (s_len <? bufsize + 4); [done|].
  cbn [dst trace]. destruct (dctx_memory k); cbn [negb]; [|done].
  change (4 + 4) with 8.
  destruct (ZSTD_decompressDCtx _ _ _) as [result out]. cbn [dst trace].
  destruct (store_bytes (dst m) 0 out) as [d|]; [|done]. cbn [dst trace].
  by destruct (ZSTD_isError result).
Qed.

(** The comparisons with the two DEFAULT constants never fire when the
    enumerator [ZIO_ZSTDLVL_DEFAULT] is numbered apart from the positive
    levels. *)
Lemma compress_levelcookie_plain n :
  0 <= ZIO_ZSTDLVL_DEFAULT_value ->
  ~ (1 <= ZIO_ZSTDLVL_DEFAULT_value <= 19) ->
  compress_levelcookie ZIO_ZSTDLVL_DEFAULT_value n = zstd_enum_to_cookie n.
Proof.
  intros H0 Hd. unfold compress_levelcookie, ZIO_COMPLEVEL_DEFAULT.
  pose proof (zstd_enum_to_cookie_range n) as [Hr Hz].
  destruct (Z.eqb_spec (zstd_enum_to_cookie n) 255); [lia|].
  destruct (Z.eqb_spec (zstd_enum_to_cookie n) ZIO_ZSTDLVL_DEFAULT_value); lia.
Qed.

End EntryPointFacts.

(** ** Frames written by [zstd_compress] *)

Section Frames.
Context {lib : ZSTD_lib} {contract : ZSTD_contract lib}.
Variable big_endian : bool.
Variable ZIO_ZSTDLVL_DEFAULT_value : Z.
Variable k : kernel.

(** A return value other than [s_len] comes from the last [return]: the
    codec reported [c_len] bytes and the destination holds the two header
    words, the payload and its old tail. *)
Lemma compress_success_frame s_start s_len d_len n m C m' :
  Z.of_nat (length (dst m)) < 2 ^ 32 ->
  zstd_compress big_endian ZIO_ZSTDLVL_DEFAULT_value k s_start s_len d_len n m
  = Some (C, m') ->
  C <> s_len ->
  exists c_len out,
    ZSTD_compressCCtx (to_size_t (d_len - 4 - 4)) (sub_buffer s_start 0 s_len)
      s_len (compress_levelcookie ZIO_ZSTDLVL_DEFAULT_value n) = (c_len, out)
    /\ ZSTD_isError c_len = false
    /\ c_len = Z.of_nat (length out)
    /\ 8 + c_len <= Z.of_nat (length (dst m))
    /\ C = c_len + 8
    /\ dst m'
       = be_bytes c_len
         ++ be_bytes (to_uint32 (compress_levelcookie ZIO_ZSTDLVL_DEFAULT_value n))
         ++ out ++ drop (8 + length out) (dst m).
Proof.
  intros Hdst Hrun Hne. rewrite zstd_compress_unfold in Hrun.
  cbv zeta in Hrun.
  destruct (cctx_memory k); [|by injection Hrun as <- _].
  destruct (ZSTD_compressCCtx _ _ _ _) as [c_len out] eqn:Ec.
  destruct (store_bytes (dst m) 8 out) as [d1|] eqn:E1; [|done].
  destruct (ZSTD_isError c_len) eqn:Ee; [by injection Hrun as <- _|].
  destruct (store_bytes d1 0 _) as [d2|] eqn:E2; [|done].
  destruct (store_bytes d2 4 _) as [d3|] eqn:E3; [|done].
  injection Hrun as <- <-.
  assert (0 <= to_size_t (d_len - 4 - 4)) as Hcap
    by (apply Z.mod_pos_bound; reflexivity).
  destruct (compress_written _ _ _ _ _ _ Hcap Ec) as [_ Hlen].
  specialize (Hlen Ee).
  pose proof (store_bytes_inv _ _ _ _ E1) as (_ & Hfit & _).
  assert (to_uint32 c_len = c_len) as Hu
    by (apply Z.mod_small; unfold UINT32_MOD; lia).
  rewrite Hu in E2.
  exists c_len, out. repeat split; try done; try lia.
  - unfold to_size_t, SIZE_MOD. rewrite Z.mod_small; lia.
  - cbn [dst]. eapply frame_layout; eauto using be_bytes_length.
Qed.

End Frames.

(** ** C9: [zstd_get_level] *)

(** C9: [zstd_get_level] never reports an error.  For every buffer that has
    the eight header bytes behind [s_start] and for every [s_len], also one
    below the header size, it returns 0 ([s_len] is not looked at: the
    result is the one for [s_len = 0]).  It stores nothing through a NULL
    [level]; otherwise the cell receives the level of the row whose cookie
    is the word at offset 4, and the default level, 3, when no row has that
    cookie. *)
Theorem get_level_never_fails s_start s_len v :
  8 <= Z.of_nat (length s_start) ->
  exists word,
    BE_IN32 s_start 4 = Some word
    /\ zstd_get_level s_start s_len None = Some (0, None)
    /\ (exists l, zstd_get_level s_start s_len (Some v) = Some (0, Some l))
    /\ zstd_get_level s_start s_len (Some v) = zstd_get_level s_start 0 (Some v)
    /\ (forall l, Levelmap (to_int32 word) l ∈ fastlevels ->
          zstd_get_level s_start s_len (Some v) = Some (0, Some l))
    /\ (to_int32 word ∉ cookie <$> fastlevels ->
        zstd_get_level s_start s_len (Some v)
        = Some (0, Some ZIO_ZSTD_LEVEL_DEFAULT)).
Proof.
  intros Hlen.
  destruct (BE_IN32_is_Some s_start 4) as [word Hw]; [lia..|].
  exists word. unfold zstd_get_level, sizeof_levelcookie, zstd_cookie_to_enum.
  rewrite Hw. cbn [set_level].
  split; [done|]. split; [done|]. split; [by eexists|]. split; [done|].
  split.
  - intros l Hl.
    by rewrite (scan_cookie_listed _ _ _ fastlevels_cookies_NoDup Hl).
  - intros Hmiss. by rewrite (scan_cookie_unlisted _ _ Hmiss).
Qed.

(** A header with the cookie 20, which no row has, and [s_len = 3]: the
    call returns 0 and the cell, which held INHERIT, holds level 3. *)
Lemma get_level_never_fails_witness :
  8 <= Z.of_nat (length [0; 0; 0; 2; 0; 0; 0; 20; 16; 7])
  /\ (20 ∉ cookie <$> fastlevels)
  /\ zstd_get_level [0; 0; 0; 2; 0; 0; 0; 20; 16; 7] 3
       (Some ZIO_ZSTDLVL_INHERIT)
     = Some (0, Some ZIO_ZSTDLVL_3).
Proof.
  assert (20 ∉ cookie <$> fastlevels) as Hmiss
    by (apply (bool_decide_unpack _); by vm_compute).
  split; [simpl; lia|]. split; [exact Hmiss|].
  destruct (get_level_never_fails [0; 0; 0; 2; 0; 0; 0; 20; 16; 7] 3
              ZIO_ZSTDLVL_INHERIT) as (word & Hw & _ & _ & _ & _ & Hdef).
  - simpl; lia.
  - injection Hw as <-. apply Hdef. exact Hmiss.
Defined.

(** A header with the unlisted cookie 20 and a length below the header
    size: the call returns 0 and reports the default level. *)
Example get_level_unlisted_cookie :
  zstd_get_level [0; 0; 0; 2; 0; 0; 0; 20; 16; 7] 3 (Some ZIO_ZSTDLVL_INHERIT)
  = Some (0, Some ZIO_ZSTDLVL_3).
Proof. reflexivity. Qed.

(** ** C3: compression is best-effort *)

Section Compress.
Context {lib : ZSTD_lib} {contract : ZSTD_contract lib}.
Variable big_endian : bool.
Variable ZIO_ZSTDLVL_DEFAULT_value : Z.
Variable k : kernel.

(** C3: if the compression context cannot be created, or the codec reports
    an error, [zstd_compress] returns exactly [s_len]: every result it
    gives is [s_len], and it does give one whenever [d_start] has room for
    the [d_len >= 8] bytes announced. *)
Theorem compress_best_effort s_start s_len d_len n m :
  cctx_memory k = false
  \/ ZSTD_isError
       (fst (ZSTD_compressCCtx (to_size_t (d_len - 4 - 4))
               (sub_buffer s_start 0 s_len) s_len
               (compress_levelcookie ZIO_ZSTDLVL_DEFAULT_value n))) = true ->
  (forall r m',
      zstd_compress big_endian ZIO_ZSTDLVL_DEFAULT_value k
        s_start s_len d_len n m = Some (r, m') -> r = s_len)
  /\ (8 <= d_len <= Z.of_nat (length (dst m)) -> d_len < 2 ^ 64 ->
      exists m',
        zstd_compress big_endian ZIO_ZSTDLVL_DEFAULT_value k
          s_start s_len d_len n m = Some (s_len, m')).
Proof.
  intros Hfail. rewrite zstd_compress_unfold. cbv zeta.
  destruct (cctx_memory k) eqn:Hmem.
  - destruct Hfail as [|Herr]; [done|].
    destruct (ZSTD_compressCCtx _ _ _ _) as [c_len out] eqn:Ec.
    cbn [fst] in Herr. rewrite Herr. split.
    + intros r m' Hrun.
      destruct (store_bytes (dst m) 8 out); [by injection Hrun|done].
    + intros Hd Hmax.
      assert (to_size_t (d_len - 4 - 4) = d_len - 8) as Hcap
        by (unfold to_size_t, SIZE_MOD; rewrite Z.mod_small; lia).
      rewrite Hcap in Ec.
      assert (0 <= d_len - 8) as Hpos by lia.
      destruct (compress_written _ _ _ _ _ _ Hpos Ec) as [Hout _].
      rewrite store_bytes_Some by lia. by eexists.
  - split; [by intros r m' [= <- _]|]. intros _ _. by eexists.
Qed.

(** C4: a successful compression returns the codec's byte count plus 8;
    the first header word read back is [C - 8], which with the header fits
    the frame; and [zstd_get_level] on the frame returns 0 and reports the
    requested level, the default level when INHERIT or DEFAULT was asked
    for.  The destination is smaller than 4 GiB and the enumerator
    [ZIO_ZSTDLVL_DEFAULT] is numbered apart from the positive levels. *)
Theorem compress_header_invariants s_start s_len d_len n m C m' :
  0 <= ZIO_ZSTDLVL_DEFAULT_value ->
  ~ (1 <= ZIO_ZSTDLVL_DEFAULT_value <= 19) ->
  Z.of_nat (length (dst m)) < 2 ^ 32 ->
  zstd_compress big_endian ZIO_ZSTDLVL_DEFAULT_value k s_start s_len d_len n m
  = Some (C, m') ->
  C <> s_len ->
  exists c_len out,
    ZSTD_compressCCtx (to_size_t (d_len - 4 - 4)) (sub_buffer s_start 0 s_len)
      s_len (zstd_enum_to_cookie n) = (c_len, out)
    /\ ZSTD_isError c_len = false
    /\ C = c_len + 8
    /\ BE_IN32 (dst m') 0 = Some (C - 8)
    /\ (C - 8) + 8 <= C
    /\ forall v,
        zstd_get_level (dst m') C (Some v) = Some (0, Some (effective_level n)).
Proof.
  intros Hd0 Hd Hdst Hrun Hne.
  destruct (compress_success_frame _ _ _ _ _ _ _ _ _ _ Hdst Hrun Hne)
    as (c_len & out & Ec & Ee & Hlen & Hfit & -> & Hframe).
  rewrite compress_levelcookie_plain in Ec, Hframe by done.
  exists c_len, out. repeat split; try done; try lia.
  - rewrite Hframe, BE_IN32_be_bytes by lia. f_equal. lia.
  - intros v. unfold zstd_get_level, sizeof_levelcookie.
    rewrite Hframe, BE_IN32_skip, BE_IN32_be_bytes
      by auto using be_bytes_length, to_uint32_range.
    pose proof (zstd_enum_to_cookie_range n) as [Hr _].
    rewrite to_int32_to_uint32 by lia.
    by rewrite cookie_to_enum_to_cookie.
Qed.


End Compress.

Lemma compress_best_effort_witness :
  ZSTD_isError
    (fst (ZSTD_compressCCtx (to_size_t (16 - 4 - 4)) (sub_buffer ramp16 0 16) 16
            (compress_levelcookie 250 ZIO_ZSTDLVL_3))) = true
  /\ exists m',
      zstd_compress (lib := run_codec) false 250 roomy ramp16 16 16
        ZIO_ZSTDLVL_3 (Machine scratch16 []) = Some (16, m').
Proof.
  split; [reflexivity|].
  apply (compress_best_effort (lib := run_codec) false 250 roomy ramp16 16 16
           ZIO_ZSTDLVL_3 (Machine scratch16 [])).
  - right. reflexivity.
  - simpl. lia.
  - lia.
Defined.

Lemma compress_header_invariants_witness :
  exists C m',
    zstd_compress (lib := run_codec) false 250 roomy zeros16 16 16
      ZIO_ZSTDLVL_INHERIT (Machine scratch16 []) = Some (C, m')
    /\ C <> 16
    /\ exists c_len out,
        ZSTD_compressCCtx (to_size_t (16 - 4 - 4)) (sub_buffer zeros16 0 16) 16
          (zstd_enum_to_cookie ZIO_ZSTDLVL_INHERIT) = (c_len, out)
        /\ ZSTD_isError c_len = false
        /\ C = c_len + 8
        /\ BE_IN32 (dst m') 0 = Some (C - 8)
        /\ (C - 8) + 8 <= C
        /\ forall v,
            zstd_get_level (dst m') C (Some v)
            = Some (0, Some (effective_level ZIO_ZSTDLVL_INHERIT)).
Proof.
  exists 10,
    (Machine [0; 0; 0; 2; 0; 0; 0; 3; 16; 0; 170; 170; 170; 170; 170; 170]
       [ev_createCCtx; ev_compressCCtx 8 8 16 3; ev_freeCCtx]).
  split; [reflexivity|]. split; [discriminate|].
  apply (compress_header_invariants (lib := run_codec) false 250 roomy
           zeros16 16 16 ZIO_ZSTDLVL_INHERIT (Machine scratch16 [])).
  - lia.
  - lia.
  - simpl. lia.
  - reflexivity.
  - discriminate.
Defined.


(** ** C1: round trip *)

Section RoundTrip.
Context {lib : ZSTD_lib} {contract : ZSTD_contract lib}.
Variable big_endian : bool.
Variable ZIO_ZSTDLVL_DEFAULT_value : Z.
Variable k : kernel.

(** C1: for a buffer [B] of length [L >= 1] (below 4 GiB) and any level,
    if [zstd_compress] with [d_len = L] returns [C <> L], then
    [zstd_decompress] on the first [C] bytes of the output returns 0 and
    leaves [B] in the destination, provided a decompression context can be
    created and the destination holds at least [L] bytes. *)
Theorem compress_decompress_roundtrip B L d0 t0 lvl C m' :
  Z.of_nat (length B) = L -> 1 <= L < 2 ^ 32 ->
  Z.of_nat (length d0) = L ->
  zstd_compress big_endian ZIO_ZSTDLVL_DEFAULT_value k B L L lvl
    (Machine d0 t0) = Some (C, m') ->
  C <> L ->
  dctx_memory k = true ->
  forall d_len out0 t1 n,
    L <= d_len -> Z.of_nat (length out0) = d_len ->
    exists m'',
      zstd_decompress k (take (Z.to_nat C) (dst m')) C d_len n
        (Machine out0 t1) = Some (0, m'')
      /\ take (Z.to_nat L) (dst m'') = B.
Proof.
  intros HB HL Hd0 Hrun Hne Hmem d_len out0 t1 n Hcap Hout0.
  assert (Z.of_nat (length (dst (Machine d0 t0))) < 2 ^ 32) as Hdst
    by (cbn [dst]; lia).
  destruct (compress_success_frame _ _ _ _ _ _ _ _ _ _ Hdst Hrun Hne)
    as (c_len & out & Ec & Ee & Hlen & Hfit & -> & Hframe).
  cbn [dst] in Hfit.
  pose proof (to_uint32_range
                (compress_levelcookie ZIO_ZSTDLVL_DEFAULT_value lvl)) as Hck.
  generalize dependent
    (to_uint32 (compress_levelcookie ZIO_ZSTDLVL_DEFAULT_value lvl)).
  intros ck Hframe Hck.
  assert (take (Z.to_nat (c_len + 8)) (dst m')
          = be_bytes c_len ++ be_bytes ck ++ out) as Hfr.
  { rewrite Hframe, !app_assoc. apply take_app_length'.
    rewrite !length_app, !be_bytes_length. lia. }
  rewrite Hfr.
  assert (BE_IN32 (be_bytes c_len ++ be_bytes ck ++ out) 0 = Some c_len)
    as H0 by (apply BE_IN32_be_bytes; lia).
  assert (BE_IN32 (be_bytes c_len ++ be_bytes ck ++ out) 4 = Some ck)
    as H4 by (by rewrite BE_IN32_skip, BE_IN32_be_bytes
                by auto using be_bytes_length).
  unfold zstd_decompress, bind.
  rewrite (zstd_decompress_level_unfold _ _ _ _ _ _ _ _ H0 H4).
  destruct (Z.ltb_spec (c_len + 8) (c_len + 4)) as [|_]; [lia|].
  rewrite Hmem. cbv zeta.
  assert (sub_buffer (be_bytes c_len ++ be_bytes ck ++ out) 8 c_len = out)
    as ->.
  { unfold sub_buffer. change (Z.to_nat 8) with (4 + 4)%nat.
    rewrite (drop_app_add' (be_bytes c_len)),
      (drop_app_length' (be_bytes ck)) by done.
    rewrite Hlen, Nat2Z.id. apply firstn_all. }
  assert (sub_buffer B 0 L = B) as HsubB.
  { unfold sub_buffer. rewrite drop_0, <- HB, Nat2Z.id. apply firstn_all. }
  rewrite HsubB, <- HB in Ec.
  assert (Z.of_nat (length B) <= d_len) as HBcap by lia.
  destruct (decompress_compress _ _ _ _ _ d_len Ec Ee HBcap) as [Hdec Hok].
  rewrite Hdec. cbn [dst trace].
  rewrite store_bytes_Some by lia. rewrite Hok. cbn [ret fst].
  eexists. split; [reflexivity|]. cbn [dst].
  change (Z.to_nat 0) with 0%nat. rewrite take_0, app_nil_l.
  apply take_app_length'. lia.
Qed.

End RoundTrip.

Lemma compress_decompress_roundtrip_witness :
  exists C m',
    zstd_compress (lib := run_codec) false 250 roomy zeros16 16 16
      ZIO_ZSTDLVL_FAST_3 (Machine scratch16 []) = Some (C, m')
    /\ C <> 16
    /\ exists m'',
        zstd_decompress roomy (take (Z.to_nat C) (dst m')) C 16 0
          (Machine scratch16 []) = Some (0, m'')
        /\ take (Z.to_nat 16) (dst m'') = zeros16.
Proof.
  exists 10,
    (Machine [0; 0; 0; 2; 255; 255; 255; 253; 16; 0;
              170; 170; 170; 170; 170; 170]
       [ev_createCCtx; ev_compressCCtx 8 8 16 (-3); ev_freeCCtx]).
  split; [reflexivity|]. split; [discriminate|].
  apply (compress_decompress_roundtrip (lib := run_codec) false 250 roomy
           zeros16 16 scratch16 [] ZIO_ZSTDLVL_FAST_3).
  - reflexivity.
  - lia.
  - reflexivity.
  - reflexivity.
  - discriminate.
  - reflexivity.
  - lia.
  - reflexivity.
Defined.

(** ** C7: the second header word *)



(** ** C5: cookies outside the level map *)

(** The cookie 20 is in no row of the table, yet [zstd_decompress] returns 0
    on [frame_cookie20] and fills the destination. *)
Example decompress_accepts_unlisted_cookie :
  scan_cookie fastlevels 20 = None
  /\ BE_IN32 frame_cookie20 4 = Some 20
  /\ zstd_decompress (lib := run_codec) roomy frame_cookie20 10 16 0
       (Machine scratch16 [])
     = Some (0, Machine zeros16
                  [ev_createDCtx; ev_decompressDCtx 16 8 2; ev_freeDCtx]).
Proof. repeat split; reflexivity. Qed.

Section Decompress.
Context {lib : ZSTD_lib}.
Variable k : kernel.

(** C5, the code: a frame whose level cookie is in no row of the level map
    is not refused.  When the length check passes, a context is created and
    the codec accepts the payload, [zstd_decompress_level] returns 0, the
    destination holds the decoded bytes, and a cell behind [level] receives
    the default level, 3, in place of an error; the miss the source comments
    with a panic has no other effect on the call. *)
Theorem decompress_unlisted_cookie_default
    s_start s_len d_len v m bufsize word result out d :
  BE_IN32 s_start 0 = Some bufsize ->
  BE_IN32 s_start 4 = Some word ->
  to_int32 word ∉ cookie <$> fastlevels ->
  bufsize + 4 <= s_len ->
  dctx_memory k = true ->
  ZSTD_decompressDCtx d_len (sub_buffer s_start 8 bufsize) bufsize
  = (result, out) ->
  ZSTD_isError result = false ->
  store_bytes (dst m) 0 out = Some d ->
  zstd_decompress_level k s_start s_len d_len (Some v) m
  = Some ((0, Some ZIO_ZSTDLVL_3),
          Machine d (trace m ++ [ev_createDCtx;
                                 ev_decompressDCtx d_len 8 bufsize;
                                 ev_freeDCtx]))
  /\ zstd_decompress k s_start s_len d_len 0 m
     = Some (0, Machine d (trace m ++ [ev_createDCtx;
                                       ev_decompressDCtx d_len 8 bufsize;
                                       ev_freeDCtx])).
Proof.
  intros H0 H4 Hmiss Hlen Hmem Hdec Hok Hst.
  unfold zstd_decompress, bind.
  rewrite !(zstd_decompress_level_unfold _ _ _ _ _ _ _ _ H0 H4).
  destruct (Z.ltb_spec s_len (bufsize + 4)) as [|_]; [lia|].
  rewrite Hmem, Hdec. cbv zeta. rewrite Hst, Hok.
  unfold zstd_cookie_to_enum. rewrite (scan_cookie_unlisted _ _ Hmiss).
  cbn [set_level ret fst]. by rewrite <- !app_assoc.
Qed.

(** The guard the code has: a payload length with
    [bufsize + 4 > s_len] is refused before any library call, and
    nothing is written. *)
Lemma decompress_guard s_start s_len d_len level m bufsize word :
  BE_IN32 s_start 0 = Some bufsize ->
  BE_IN32 s_start 4 = Some word ->
  s_len < bufsize + 4 ->
  zstd_decompress_level k s_start s_len d_len level m = Some ((1, level), m).
Proof.
  intros H0 H4 Hlen.
  rewrite (zstd_decompress_level_unfold _ _ _ _ _ _ _ _ H0 H4).
  by destruct (Z.ltb_spec s_len (bufsize + 4)) as [_|]; [|lia].
Qed.

(** Past the guard the codec is called, whatever the codec: also when
    [bufsize + 8 > s_len], the payload reaching beyond the frame. *)
Lemma decompress_past_guard_calls_codec
    s_start s_len d_len level m bufsize word r m' :
  BE_IN32 s_start 0 = Some bufsize ->
  BE_IN32 s_start 4 = Some word ->
  bufsize + 4 <= s_len ->
  dctx_memory k = true ->
  zstd_decompress_level k s_start s_len d_len level m = Some (r, m') ->
  ev_decompressDCtx d_len 8 bufsize ∈ trace m'.
Proof.
  intros H0 H4 Hlen Hmem.
  rewrite (zstd_decompress_level_unfold _ _ _ _ _ _ _ _ H0 H4).
  destruct (Z.ltb_spec s_len (bufsize + 4)) as [|_]; [lia|].
  rewrite Hmem. destruct (ZSTD_decompressDCtx _ _ _) as [result out].
  cbv zeta. destruct (store_bytes (dst m) 0 out); [|done].
  intros [= _ <-]. cbn [trace]. set_solver.
Qed.

End Decompress.

(** [frame_cookie20] with a cell that held INHERIT: the call returns 0,
    the cell holds level 3 and the destination the sixteen decoded bytes. *)
Lemma decompress_unlisted_cookie_default_witness :
  (20 ∉ cookie <$> fastlevels)
  /\ zstd_decompress_level (lib := run_codec) roomy frame_cookie20 10 16
       (Some ZIO_ZSTDLVL_INHERIT) (Machine scratch16 [])
     = Some ((0, Some ZIO_ZSTDLVL_3),
             Machine zeros16
               [ev_createDCtx; ev_decompressDCtx 16 8 2; ev_freeDCtx])
  /\ zstd_decompress (lib := run_codec) roomy frame_cookie20 10 16 0
       (Machine scratch16 [])
     = Some (0, Machine zeros16
                  [ev_createDCtx; ev_decompressDCtx 16 8 2; ev_freeDCtx]).
Proof.
  assert (20 ∉ cookie <$> fastlevels) as Hmiss
    by (apply (bool_decide_unpack _); by vm_compute).
  split; [exact Hmiss|].
  apply (decompress_unlisted_cookie_default (lib := run_codec) roomy
           frame_cookie20 10 16 ZIO_ZSTDLVL_INHERIT
           (Machine scratch16 []) 2 20 16 zeros16 zeros16).
  - reflexivity.
  - reflexivity.
  - exact Hmiss.
  - lia.
  - reflexivity.
  - reflexivity.
  - reflexivity.
  - reflexivity.
Defined.

(** ** C2: the length check of [zstd_decompress_level] *)

(** C2, the code on [frame_short]: the header announces 8 payload bytes in a
    frame of 12, so the payload length plus the header exceeds the frame;
    the guard compares 8 + 4 with 12 and lets the frame pass, a context is
    created and the codec is called on 8 bytes at offset 8. *)
Theorem decompress_short_frame_reaches_codec :
  BE_IN32 frame_short 0 = Some 8
  /\ 8 + 8 > Z.of_nat (length frame_short)
  /\ zstd_decompress (lib := run_codec) roomy frame_short 12 16 0
       (Machine scratch16 [])
     = Some (1, Machine scratch16
                  [ev_createDCtx; ev_decompressDCtx 16 8 8; ev_freeDCtx]).
Proof. repeat split; reflexivity. Qed.

(** With the payload in memory behind a frame length that cuts it short,
    the call even succeeds and overwrites the destination. *)
Example decompress_cut_frame_succeeds :
  zstd_decompress (lib := run_codec) roomy
    [0; 0; 0; 2; 0; 0; 0; 3; 16; 0] 8 16 0
    (Machine scratch16 [])
  = Some (0, Machine zeros16
               [ev_createDCtx; ev_decompressDCtx 16 8 2; ev_freeDCtx]).
Proof. reflexivity. Qed.

(** ** The allocator: what a call leaves untouched *)

Lemma vmem_alloc_fallback st r st' :
  vmem_alloc st = (r, st') -> zstd_dctx_fallback st' = zstd_dctx_fallback st.
Proof. unfold vmem_alloc. destruct (heap st); by intros [= _ <-]. Qed.

Lemma expire_slot_fallback now p st p' st' :
  expire_slot now p st = (p', st') ->
  zstd_dctx_fallback st' = zstd_dctx_fallback st.
Proof.
  unfold expire_slot. destruct (pool_mem p); [|by intros [= _ <-]].
  destruct (pool_timeout p <? now); by intros [= _ <-].
Qed.

Lemma first_pass_visit_fallback now sz chosen p st c p' st' :
  first_pass_visit now sz chosen p st = (c, p', st') ->
  zstd_dctx_fallback st' = zstd_dctx_fallback st.
Proof.
  unfold first_pass_visit. destruct (pool_barrier p); [by intros [= _ _ <-]|].
  destruct chosen, (pool_mem p); try destruct (sz <=? pool_size p);
    try (by intros [= _ _ <-]);
    destruct (expire_slot now p st) as [p1 st1] eqn:E;
    intros [= _ _ <-]; eapply expire_slot_fallback, E.
Qed.

Lemma first_pass_fallback now sz slots : forall chosen st c slots' st',
  first_pass now sz slots chosen st = (c, slots', st') ->
  zstd_dctx_fallback st' = zstd_dctx_fallback st.
Proof.
  induction slots as [|p rest IH]; intros chosen st c slots' st'; simpl.
  - by intros [= _ _ <-].
  - destruct (first_pass_visit now sz chosen p st) as [[c1 p1] st1] eqn:E1.
    destruct (first_pass now sz rest c1 st1) as [[c2 rest2] st2] eqn:E2.
    intros [= _ _ <-]. rewrite (IH _ _ _ _ _ E2).
    eapply first_pass_visit_fallback, E1.
Qed.

Lemma second_pass_fallback which now sz slots : forall i st r slots' st',
  second_pass which now sz i slots st = Some (r, slots', st') ->
  zstd_dctx_fallback st' = zstd_dctx_fallback st.
Proof.
  induction slots as [|p rest IH]; intros i st r slots' st'; simpl; [done|].
  assert (match second_pass which now sz (S i) rest st with
          | Some (r0, rest', st'0) => Some (r0, p :: rest', st'0)
          | None => None
          end = Some (r, slots', st') ->
          zstd_dctx_fallback st' = zstd_dctx_fallback st) as Hnext.
  { destruct (second_pass which now sz (S i) rest st)
      as [[[r0 rest'] st0]|] eqn:E; [|done].
    intros [= _ _ <-]. eapply IH, E. }
  destruct (pool_barrier p); [done|]. destruct (pool_mem p); [done|].
  destruct (vmem_alloc st) as [mem st1] eqn:Ev.
  pose proof (vmem_alloc_fallback _ _ _ Ev) as Hv.
  destruct mem; by intros [= _ _ <-].
Qed.

Lemma set_mempool_fallback which slots st :
  zstd_dctx_fallback (set_mempool which slots st) = zstd_dctx_fallback st.
Proof. by destruct which. Qed.

(** The pool allocator never touches the fallback reservation. *)
Lemma zstd_mempool_alloc_fallback which sz now st r st' :
  zstd_mempool_alloc which sz now st = (r, st') ->
  zstd_dctx_fallback st' = zstd_dctx_fallback st.
Proof.
  unfold zstd_mempool_alloc.
  destruct (get_mempool which st) as [slots|]; [|by intros [= _ <-]].
  destruct (first_pass now sz slots None st) as [[chosen slots1] st1] eqn:E1.
  pose proof (first_pass_fallback _ _ _ _ _ _ _ _ E1) as H1.
  destruct chosen; [intros [= _ <-]; by rewrite set_mempool_fallback|].
  destruct (second_pass which now sz 0 slots1 (set_mempool which slots1 st1))
    as [[[r2 slots2] st2]|] eqn:E2.
  - intros [= _ <-]. rewrite set_mempool_fallback.
    rewrite (second_pass_fallback _ _ _ _ _ _ _ _ _ E2).
    by rewrite set_mempool_fallback.
  - destruct (vmem_alloc (set_mempool which slots1 st1)) as [mem st3] eqn:Ev.
    pose proof (vmem_alloc_fallback _ _ _ Ev) as Hv.
    rewrite set_mempool_fallback in Hv.
    destruct mem; intros [= _ <-]; cbn; congruence.
Qed.

(** [P2ROUNDUP] gives the least multiple of the alignment that is not below
    its argument. *)
Lemma P2ROUNDUP_spec x align :
  0 < align ->
  x <= P2ROUNDUP x align < x + align /\ (align | P2ROUNDUP x align).
Proof.
  intros Ha. unfold P2ROUNDUP. split.
  - pose proof (Z.div_mod (x + align - 1) align ltac:(lia)) as Hdm.
    pose proof (Z.mod_pos_bound (x + align - 1) align Ha) as Hm. lia.
  - by apply Z.divide_factor_l.
Qed.

(** ** C10: the fallback slab *)

Section FallbackSlab.
Context {lib : ZSTD_lib}.
Variable PAGESIZE : Z.
Variable boot_ncpus : Z.

(** C10: [zstd_init] fixes the capacity of the fallback slab at the
    decompression-context estimate (with the allocator header) rounded up
    to the page size; and on its last-resort path, the pool and the heap
    having failed, [zstd_dctx_alloc] returns that slab for any requested
    size: it stores the request in [kmem_size], tags the slab
    [ZSTD_KMEM_DCTX], keeps the barrier, and never compares the request
    with [mem_size], which stays as it was. *)
Theorem fallback_slab_handed_out_unchecked :
  (forall st,
      mem_size (zstd_dctx_fallback (zstd_init PAGESIZE boot_ncpus st))
      = P2ROUNDUP (ZSTD_estimateDCtxSize + sizeof_zstd_kmem) PAGESIZE)
  /\ (forall sz now st st1 st2 z,
        zstd_mempool_alloc mempool_dctx (to_size_t (sizeof_zstd_kmem + sz))
          now st = (None, st1) ->
        vmem_alloc st1 = (None, st2) ->
        fallback_mem (zstd_dctx_fallback st) = Some z ->
        fallback_barrier (zstd_dctx_fallback st) = false ->
        exists st3,
          zstd_dctx_alloc sz now st = Some (Some (z + sizeof_zstd_kmem), st3)
          /\ kmem_type (kmem_at st3 z) = ZSTD_KMEM_DCTX
          /\ kmem_size (kmem_at st3 z) = to_size_t (sizeof_zstd_kmem + sz)
          /\ zstd_dctx_fallback st3
             = Fallback (mem_size (zstd_dctx_fallback st)) (Some z) true).
Proof.
  split.
  - intros st. unfold zstd_init, zstd_meminit, create_fallback_mem.
    destruct (vmem_alloc _) as [[z|] st1]; reflexivity.
  - intros sz now st st1 st2 z Hpool Hheap Hmem Hfree.
    pose proof (zstd_mempool_alloc_fallback _ _ _ _ _ _ Hpool) as H1.
    pose proof (vmem_alloc_fallback _ _ _ Hheap) as H2.
    unfold zstd_dctx_alloc. rewrite Hpool, Hheap.
    rewrite H2, H1, Hfree, Hmem.
    eexists. split; [reflexivity|].
    unfold kmem_at. cbn [kmem set_kmem].
    rewrite lookup_insert_eq. cbn. done.
Qed.

End FallbackSlab.

(** After [zstd_init] on a host with 4 KiB pages, the heap then being
    exhausted, a request of 100000 bytes is served from the 4096-byte slab. *)
Lemma fallback_slab_handed_out_unchecked_witness :
  let st := zstd_init (lib := run_codec) 4096 1 (boot_state [Some 1000]) in
  mem_size (zstd_dctx_fallback st) = 4096
  /\ exists st3,
      zstd_dctx_alloc 100000 50 st = Some (Some (1000 + sizeof_zstd_kmem), st3)
      /\ kmem_type (kmem_at st3 1000) = ZSTD_KMEM_DCTX
      /\ kmem_size (kmem_at st3 1000) = to_size_t (sizeof_zstd_kmem + 100000)
      /\ zstd_dctx_fallback st3 = Fallback (mem_size (zstd_dctx_fallback st))
                                    (Some 1000) true.
Proof.
  intros st.
  destruct (fallback_slab_handed_out_unchecked (lib := run_codec) 4096 1)
    as [Hinit Hlast].
  split; [exact (Hinit (boot_state [Some 1000]))|].
  apply (Hlast 100000 50 st
           (snd (zstd_mempool_alloc mempool_dctx
                   (to_size_t (sizeof_zstd_kmem + 100000)) 50 st))
           (snd (zstd_mempool_alloc mempool_dctx
                   (to_size_t (sizeof_zstd_kmem + 100000)) 50 st))).
  - reflexivity.
  - reflexivity.
  - reflexivity.
  - reflexivity.
Defined.

(** ** C8: pool size and slot timeout *)

(** C8 as stated fails: on a host with one processor [zstd_init] sets up
    pools of 4 slots, where the claim has max (16, 4) = 16. *)
Lemma pool_count_single_cpu :
  let st := zstd_init (lib := run_codec) 4096 1 (boot_state [Some 1000]) in
  ZSTD_POOL_MAX st = 4
  /\ length <$> zstd_mempool_cctx st = Some 4%nat
  /\ length <$> zstd_mempool_dctx st = Some 4%nat
  /\ Z.max 16 (4 * 1) = 16.
Proof. repeat split; reflexivity. Qed.

(** Over the whole array: an unlocked slot whose deadline has passed and
    whose buffer is too small for the request is empty after the first
    loop. *)
Lemma first_pass_reclaims now sz slots :
  forall i p m chosen st c slots' st',
    slots !! i = Some p ->
    pool_barrier p = false -> pool_mem p = Some m ->
    pool_timeout p < now -> pool_size p < sz ->
    first_pass now sz slots chosen st = (c, slots', st') ->
    slots' !! i = Some (Pool None 0 false 0).
Proof.
  induction slots as [|q rest IH]; intros i p m chosen st c slots' st';
    [done|]. simpl.
  destruct (first_pass_visit now sz chosen q st) as [[c1 q1] st1] eqn:E1.
  destruct (first_pass now sz rest c1 st1) as [[c2 rest2] st2] eqn:E2.
  destruct i as [|i]; simpl.
  - intros [= ->] Hb Hm Ht Hs [= _ <- _]. simpl.
    unfold first_pass_visit, expire_slot in E1. rewrite Hb, Hm in E1.
    destruct (Z.leb_spec sz (pool_size p)); [lia|].
    destruct (Z.ltb_spec (pool_timeout p) now); [|lia].
    destruct chosen; by injection E1 as _ <- _.
  - intros Hi Hb Hm Ht Hs [= _ <- _]. simpl. eapply IH; eauto.
Qed.

Section Pools.
Context {lib : ZSTD_lib}.
Variable PAGESIZE : Z.
Variable boot_ncpus : Z.

(** C8, amended: after [zstd_init] on a host with [boot_ncpus]
    processors (the product with 4 fitting an [int]) both pools have
    4 * [boot_ncpus] slots, all empty and unlocked; the slot timeout is
    120 seconds; and a buffer last claimed at [t_use], found unlocked
    more than 120 seconds later by a visitor that does not claim it, is
    freed and its slot cleared. *)
Theorem pools_after_init st :
  1 <= boot_ncpus -> boot_ncpus * 4 < 2 ^ 31 ->
  let st' := zstd_init PAGESIZE boot_ncpus st in
  ZSTD_POOL_MAX st' = 4 * boot_ncpus
  /\ zstd_mempool_cctx st'
     = Some (replicate (Z.to_nat (4 * boot_ncpus)) (Pool None 0 false 0))
  /\ zstd_mempool_dctx st'
     = Some (replicate (Z.to_nat (4 * boot_ncpus)) (Pool None 0 false 0))
  /\ Z.of_nat (length (replicate (Z.to_nat (4 * boot_ncpus))
                         (Pool None 0 false 0))) = 4 * boot_ncpus
  /\ ZSTD_POOL_TIMEOUT = 120
  /\ forall now sz chosen p s m t_use,
      pool_barrier p = false -> pool_mem p = Some m ->
      pool_timeout p = t_use + ZSTD_POOL_TIMEOUT ->
      t_use + 120 < now ->
      chosen <> None \/ pool_size p < sz ->
      first_pass_visit now sz chosen p s
      = (chosen, Pool None 0 false 0, kmem_free m (pool_size p) s).
Proof.
  intros Hcpu Hint st'.
  assert (boot_ncpus * 4 = 4 * boot_ncpus) as Hmul by lia.
  assert (ZSTD_POOL_MAX st' = 4 * boot_ncpus
          /\ zstd_mempool_cctx st'
             = Some (replicate (Z.to_nat (4 * boot_ncpus))
                       (Pool None 0 false 0))
          /\ zstd_mempool_dctx st'
             = Some (replicate (Z.to_nat (4 * boot_ncpus))
                       (Pool None 0 false 0))) as (HN & Hc & Hd).
  { subst st'.
    unfold zstd_init, zstd_meminit, create_fallback_mem, vmem_alloc,
      zstd_mempool_init, ZSTD_POOL_MAX.
    cbn. rewrite Hmul. by destruct (heap st) as [|[z|] h]. }
  repeat split; try done.
  - rewrite length_replicate. lia.
  - intros now sz chosen p s m t_use Hb Hm Ht Hidle Hskip.
    unfold first_pass_visit, expire_slot. rewrite Hb, Hm.
    assert ((pool_timeout p <? now) = true) as ->
      by (apply Z.ltb_lt; unfold ZSTD_POOL_TIMEOUT in Ht; lia).
    destruct chosen as [c|]; [done|].
    destruct Hskip as [|Hs]; [done|].
    by destruct (Z.leb_spec sz (pool_size p)); [lia|].
Qed.

End Pools.

Lemma pools_after_init_witness :
  let st' := zstd_init (lib := run_codec) 4096 8 (boot_state [Some 1000]) in
  ZSTD_POOL_MAX st' = 4 * 8
  /\ zstd_mempool_cctx st'
     = Some (replicate (Z.to_nat (4 * 8)) (Pool None 0 false 0))
  /\ zstd_mempool_dctx st'
     = Some (replicate (Z.to_nat (4 * 8)) (Pool None 0 false 0))
  /\ Z.of_nat (length (replicate (Z.to_nat (4 * 8)) (Pool None 0 false 0)))
     = 4 * 8
  /\ ZSTD_POOL_TIMEOUT = 120
  /\ forall now sz chosen p s m t_use,
      pool_barrier p = false -> pool_mem p = Some m ->
      pool_timeout p = t_use + ZSTD_POOL_TIMEOUT ->
      t_use + 120 < now ->
      chosen <> None \/ pool_size p < sz ->
      first_pass_visit now sz chosen p s
      = (chosen, Pool None 0 false 0, kmem_free m (pool_size p) s).
Proof.
  apply (pools_after_init (lib := run_codec) 4096 8 (boot_state [Some 1000]));
    lia.
Defined.

(** A slot claimed at second 10 and visited at second 131 by a request it
    cannot serve: the buffer goes back to the kernel. *)
Example stale_slot_is_reclaimed :
  first_pass_visit 131 4096 None (Pool (Some 7000) 512 false (10 + 120))
    (boot_state [])
  = (None, Pool None 0 false 0, kmem_free 7000 512 (boot_state [])).
Proof. reflexivity. Qed.

(** * Further properties of the code *)

(** ** The level map, both ways *)

Lemma scan_cookie_level_in tbl c l :
  scan_cookie tbl c = Some l -> l ∈ level <$> tbl.
Proof.
  induction tbl as [|e tbl IH]; simpl; [discriminate|].
  destruct (cookie e =? c).
  - intros [= <-]. apply list_elem_of_here.
  - intros H'. apply list_elem_of_further, IH, H'.
Qed.

Lemma scan_level_of_scan_cookie tbl c l :
  NoDup (level <$> tbl) ->
  scan_cookie tbl c = Some l -> scan_level tbl l = Some c.
Proof.
  induction tbl as [|e tbl IH]; simpl; [discriminate|].
  intros Hnd. apply NoDup_cons in Hnd as [Hfresh Hnd].
  destruct (Z.eqb_spec (cookie e) c) as [Hc|Hc].
  - intros [= <-]. rewrite bool_decide_true by done. by rewrite Hc.
  - intros Hscan. case_bool_decide as Hl.
    + destruct Hfresh. rewrite Hl. eapply scan_cookie_level_in, Hscan.
    + by apply IH.
Qed.

Lemma fastlevels_levels_NoDup : NoDup (level <$> fastlevels).
Proof. apply (bool_decide_unpack _). by vm_compute. Qed.

(** X1: [zstd_cookie_to_enum] never yields one of the sentinels INHERIT and
    DEFAULT, whatever 32-bit value it is given; the ASSERT3U on
    [zstdlevel] in [zstd_get_level] and [zstd_decompress_level] cannot
    fire. *)
Theorem cookie_to_enum_never_sentinel c :
  zstd_cookie_to_enum c <> ZIO_ZSTDLVL_INHERIT
  /\ zstd_cookie_to_enum c <> ZIO_ZSTDLVL_DEFAULT.
Proof.
  assert (ZIO_ZSTDLVL_INHERIT ∉ level <$> fastlevels) as Hi
    by (apply (bool_decide_unpack _); by vm_compute).
  assert (ZIO_ZSTDLVL_DEFAULT ∉ level <$> fastlevels) as Hd
    by (apply (bool_decide_unpack _); by vm_compute).
  unfold zstd_cookie_to_enum.
  destruct (scan_cookie fastlevels c) as [l|] eqn:E; [|done].
  apply scan_cookie_level_in in E. split; intros ->; tauto.
Qed.

(** X2: the level handed to the codec by [zstd_compress] is never 0 and lies
    between -1000 and 19, for every requested level and whatever number the
    enumerator [ZIO_ZSTDLVL_DEFAULT] has; the ASSERT3U on [levelcookie]
    cannot fire. *)
Theorem compress_levelcookie_nonzero ZIO_ZSTDLVL_DEFAULT_value n :
  compress_levelcookie ZIO_ZSTDLVL_DEFAULT_value n <> 0
  /\ -1000 <= compress_levelcookie ZIO_ZSTDLVL_DEFAULT_value n <= 19.
Proof.
  unfold compress_levelcookie, ZIO_COMPLEVEL_DEFAULT,
    ZIO_ZSTD_LEVEL_DEFAULT_value.
  pose proof (zstd_enum_to_cookie_range n) as [Hr Hz].
  destruct (Z.eqb_spec (zstd_enum_to_cookie n) 255); [lia|].
  destruct (Z.eqb_spec (zstd_enum_to_cookie n) ZIO_ZSTDLVL_DEFAULT_value);
    lia.
Qed.

(** X3: a cookie that is listed in [fastlevels] survives the passage through
    the logical level, [zstd_enum_to_cookie (zstd_cookie_to_enum c) = c];
    every other cookie comes back as 3. *)
Theorem enum_to_cookie_to_enum c :
  (forall l, scan_cookie fastlevels c = Some l ->
             zstd_enum_to_cookie (zstd_cookie_to_enum c) = c)
  /\ (scan_cookie fastlevels c = None ->
      zstd_enum_to_cookie (zstd_cookie_to_enum c) = 3).
Proof.
  unfold zstd_cookie_to_enum, zstd_enum_to_cookie. split.
  - intros l Hl. rewrite Hl.
    by rewrite (scan_level_of_scan_cookie _ _ _ fastlevels_levels_NoDup Hl).
  - by intros ->.
Qed.

Lemma enum_to_cookie_to_enum_witness :
  zstd_enum_to_cookie (zstd_cookie_to_enum (-500)) = -500
  /\ zstd_enum_to_cookie (zstd_cookie_to_enum 77) = 3.
Proof.
  split.
  - apply (proj1 (enum_to_cookie_to_enum (-500)) ZIO_ZSTDLVL_FAST_500).
    reflexivity.
  - apply (proj2 (enum_to_cookie_to_enum 77)). reflexivity.
Defined.

(** ** The entry points: what every call does *)

Section EntryPointRuns.
Context {lib : ZSTD_lib}.
Variable ZIO_ZSTDLVL_DEFAULT_value : Z.
Variable k : kernel.

(** X4: the frame does not depend on the byte order of the host:
    [zstd_compress] gives the same return value, the same destination bytes
    and the same library calls on a big-endian and on a little-endian
    host. *)
Theorem compress_endian_independent s_start s_len d_len n m :
  zstd_compress true ZIO_ZSTDLVL_DEFAULT_value k s_start s_len d_len n m
  = zstd_compress false ZIO_ZSTDLVL_DEFAULT_value k s_start s_len d_len n m.
Proof. by rewrite !zstd_compress_unfold. Qed.

(** X5: every run of [zstd_compress] creates a context first.  If that
    fails nothing else is called, the destination is untouched and [s_len]
    is returned; otherwise the codec is called exactly once and the context
    is freed before the return, on the error path as on the success path. *)
Theorem compress_context_balanced big_endian s_start s_len d_len n m r m' :
  zstd_compress big_endian ZIO_ZSTDLVL_DEFAULT_value k s_start s_len d_len n m
  = Some (r, m') ->
  (cctx_memory k = false /\ r = s_len /\ dst m' = dst m
   /\ trace m' = trace m ++ [ev_createCCtx])
  \/ (cctx_memory k = true
      /\ trace m'
         = trace m
           ++ [ev_createCCtx;
               ev_compressCCtx 8 (to_size_t (d_len - 4 - 4)) s_len
                 (compress_levelcookie ZIO_ZSTDLVL_DEFAULT_value n);
               ev_freeCCtx]).
Proof.
  rewrite zstd_compress_unfold. cbv zeta.
  destruct (cctx_memory k); [|intros [= <- <-]; by left].
  intros Hrun. right. split; [done|].
  destruct (ZSTD_compressCCtx _ _ _ _) as [c_len out].
  destruct (store_bytes (dst m) 8 out) as [d1|]; [|done].
  destruct (ZSTD_isError c_len);
    [injection Hrun as _ <-; cbn [trace]; by rewrite <- !app_assoc|].
  destruct (store_bytes d1 0 _) as [d2|]; [|done].
  destruct (store_bytes d2 4 _) as [d3|]; [|done].
  injection Hrun as _ <-. cbn [trace]. by rewrite <- !app_assoc.
Qed.

(** A run of [zstd_decompress_level] that gives a result has read the two
    header words. *)
Lemma decompress_level_reads s_start s_len d_len level m x :
  zstd_decompress_level k s_start s_len d_len level m = Some x ->
  exists bufsize word,
    BE_IN32 s_start 0 = Some bufsize /\ BE_IN32 s_start 4 = Some word.
Proof.
  unfold zstd_decompress_level, bind, lift, sizeof_bufsize.
  destruct (BE_IN32 s_start 0) as [bufsize|]; [|done].
  destruct (BE_IN32 s_start 4) as [word|]; [|done]. eauto.
Qed.

(** X6: [zstd_decompress_level] returns 0 or 1, and it stores through
    [level] only when it returns 0: on every error return the cell behind
    [level] keeps its old contents; on success a NULL [level] stays NULL
    and a cell receives the level of the cookie in the frame, whatever it
    held before. *)
Theorem decompress_level_outcome s_start s_len d_len level m r lv m' :
  zstd_decompress_level k s_start s_len d_len level m = Some ((r, lv), m') ->
  (r = 1 /\ lv = level)
  \/ (r = 0
      /\ exists word,
          BE_IN32 s_start 4 = Some word
          /\ lv = match level with
                  | Some _ => Some (zstd_cookie_to_enum (to_int32 word))
                  | None => None
                  end).
Proof.
  intros Hrun.
  destruct (decompress_level_reads _ _ _ _ _ _ Hrun)
    as (bufsize & word & H0 & H4).
  rewrite (zstd_decompress_level_unfold _ _ _ _ _ _ _ _ H0 H4) in Hrun.
  destruct (s_len <? bufsize + 4); [injection Hrun as <- <- _; by left|].
  destruct (dctx_memory k); [|injection Hrun as <- <- _; by left].
  destruct (ZSTD_decompressDCtx _ _ _) as [result out]. cbv zeta in Hrun.
  destruct (store_bytes (dst m) 0 out); [|done].
  destruct (ZSTD_isError result); injection Hrun as <- <- _; [by left|].
  right. split; [done|]. exists word. split; [done|]. by destruct level.
Qed.

(** X7: the library calls of [zstd_decompress_level].  A frame refused by
    the length check causes no call at all; when no context can be created
    that attempt is the only call; in both cases the destination is
    untouched.  Otherwise the codec is called once, on [bufsize] bytes at
    offset 8, and the context is freed before the return. *)
Theorem decompress_context_balanced s_start s_len d_len level m x m' :
  zstd_decompress_level k s_start s_len d_len level m = Some (x, m') ->
  exists bufsize,
    BE_IN32 s_start 0 = Some bufsize
    /\ ((s_len < bufsize + 4 /\ m' = m)
        \/ (bufsize + 4 <= s_len /\ dctx_memory k = false
            /\ dst m' = dst m /\ trace m' = trace m ++ [ev_createDCtx])
        \/ (bufsize + 4 <= s_len /\ dctx_memory k = true
            /\ trace m'
               = trace m
                 ++ [ev_createDCtx; ev_decompressDCtx d_len 8 bufsize;
                     ev_freeDCtx])).
Proof.
  intros Hrun.
  destruct (decompress_level_reads _ _ _ _ _ _ Hrun)
    as (bufsize & word & H0 & H4).
  rewrite (zstd_decompress_level_unfold _ _ _ _ _ _ _ _ H0 H4) in Hrun.
  exists bufsize. split; [done|].
  destruct (Z.ltb_spec s_len (bufsize + 4));
    [injection Hrun as _ <-; by left|].
  right. destruct (dctx_memory k); [|injection Hrun as _ <-; by left].
  right. destruct (ZSTD_decompressDCtx _ _ _) as [result out].
  cbv zeta in Hrun. destruct (store_bytes (dst m) 0 out); [|done].
  injection Hrun as _ <-. cbn [trace]. by rewrite <- !app_assoc.
Qed.

(** X8: the level [zstd_decompress_level] reports on success is the level
    [zstd_get_level] reports for the same buffer, whatever [s_len] and
    previous cell contents [zstd_get_level] is called with. *)
Theorem decompress_level_agrees_with_get_level
    s_start s_len d_len v m lv m' s_len' v' :
  zstd_decompress_level k s_start s_len d_len (Some v) m
  = Some ((0, lv), m') ->
  zstd_get_level s_start s_len' (Some v') = Some (0, lv).
Proof.
  intros Hrun.
  destruct (decompress_level_reads _ _ _ _ _ _ Hrun)
    as (bufsize & word & H0 & H4).
  rewrite (zstd_decompress_level_unfold _ _ _ _ _ _ _ _ H0 H4) in Hrun.
  unfold zstd_get_level, sizeof_levelcookie. rewrite H4.
  destruct (s_len <? bufsize + 4); [done|].
  destruct (dctx_memory k); [|done].
  destruct (ZSTD_decompressDCtx _ _ _) as [result out]. cbv zeta in Hrun.
  destruct (store_bytes (dst m) 0 out); [|done].
  destruct (ZSTD_isError result); [done|]. by injection Hrun as <- _.
Qed.

End EntryPointRuns.

Lemma compress_context_balanced_witness :
  (cctx_memory roomy = false /\ 16 = 16 /\ scratch16 = scratch16
   /\ [ev_createCCtx; ev_compressCCtx 8 8 16 3; ev_freeCCtx]
      = [] ++ [ev_createCCtx])
  \/ (cctx_memory roomy = true
      /\ [ev_createCCtx; ev_compressCCtx 8 8 16 3; ev_freeCCtx]
         = [] ++ [ev_createCCtx;
                  ev_compressCCtx 8 (to_size_t (16 - 4 - 4)) 16
                    (compress_levelcookie 250 ZIO_ZSTDLVL_3);
                  ev_freeCCtx]).
Proof.
  apply (compress_context_balanced (lib := run_codec) 250 roomy false ramp16
           16 16 ZIO_ZSTDLVL_3 (Machine scratch16 []) 16
           (Machine scratch16
              [ev_createCCtx; ev_compressCCtx 8 8 16 3; ev_freeCCtx])).
  reflexivity.
Defined.

(** A frame of level 5 decoded into a cell that held level 19: the call
    returns 0 and the cell holds level 5. *)
Lemma decompress_level_outcome_witness :
  zstd_decompress_level (lib := run_codec) roomy
    [0; 0; 0; 2; 0; 0; 0; 5; 16; 0] 10 16 (Some ZIO_ZSTDLVL_19)
    (Machine scratch16 [])
  = Some ((0, Some ZIO_ZSTDLVL_5),
          Machine zeros16
            [ev_createDCtx; ev_decompressDCtx 16 8 2; ev_freeDCtx])
  /\ exists word,
       BE_IN32 [0; 0; 0; 2; 0; 0; 0; 5; 16; 0] 4 = Some word
       /\ Some ZIO_ZSTDLVL_5 = Some (zstd_cookie_to_enum (to_int32 word)).
Proof.
  split; [reflexivity|].
  destruct (decompress_level_outcome (lib := run_codec) roomy
              [0; 0; 0; 2; 0; 0; 0; 5; 16; 0] 10 16
              (Some ZIO_ZSTDLVL_19) (Machine scratch16 []) 0
              (Some ZIO_ZSTDLVL_5)
              (Machine zeros16
                 [ev_createDCtx; ev_decompressDCtx 16 8 2; ev_freeDCtx]))
    as [[Hone _]|[_ Hlevel]].
  - reflexivity.
  - discriminate Hone.
  - exact Hlevel.
Defined.

Lemma decompress_context_balanced_witness :
  exists bufsize,
    BE_IN32 frame_cookie20 0 = Some bufsize
    /\ ((10 < bufsize + 4
         /\ Machine scratch16 [ev_createDCtx] = Machine scratch16 [])
        \/ (bufsize + 4 <= 10 /\ dctx_memory (Kernel true false) = false
            /\ scratch16 = scratch16
            /\ [ev_createDCtx] = [] ++ [ev_createDCtx])
        \/ (bufsize + 4 <= 10 /\ dctx_memory (Kernel true false) = true
            /\ [ev_createDCtx]
               = [] ++ [ev_createDCtx; ev_decompressDCtx 16 8 bufsize;
                        ev_freeDCtx])).
Proof.
  apply (decompress_context_balanced (lib := run_codec) (Kernel true false)
           frame_cookie20 10 16 (Some ZIO_ZSTDLVL_19) (Machine scratch16 [])
           (1, Some ZIO_ZSTDLVL_19) (Machine scratch16 [ev_createDCtx])).
  reflexivity.
Defined.

Lemma decompress_level_agrees_with_get_level_witness :
  zstd_get_level frame_cookie20 0 (Some ZIO_ZSTDLVL_19)
  = Some (0, Some ZIO_ZSTDLVL_3).
Proof.
  apply (decompress_level_agrees_with_get_level (lib := run_codec) roomy
           frame_cookie20 10 16 ZIO_ZSTDLVL_INHERIT (Machine scratch16 [])
           (Some ZIO_ZSTDLVL_3)
           (Machine zeros16
              [ev_createDCtx; ev_decompressDCtx 16 8 2; ev_freeDCtx])).
  reflexivity.
Defined.

(** ** Frames, continued *)

(** A store that ends at or before offset [n] leaves the bytes from [n] on
    as they were. *)
Lemma store_bytes_drop buf off bs buf' n :
  store_bytes buf off bs = Some buf' ->
  off + Z.of_nat (length bs) <= Z.of_nat n ->
  drop n buf' = drop n buf.
Proof.
  intros (H0 & Hle & ->)%store_bytes_inv Hn.
  assert (length (take (Z.to_nat off) buf ++ bs)
          = (Z.to_nat off + length bs)%nat) as Hl
    by (rewrite length_app, length_take; lia).
  set (e := (Z.to_nat off + length bs)%nat) in *.
  replace n with (e + (n - e))%nat at 1 by lia.
  rewrite app_assoc, drop_app_add' by done.
  rewrite drop_drop. f_equal. lia.
Qed.

Section FrameExtent.
Context {lib : ZSTD_lib}.
Variable big_endian : bool.
Variable ZIO_ZSTDLVL_DEFAULT_value : Z.
Variable k : kernel.

(** X9: [zstd_compress] stays inside the [d_len] bytes it was given, for a
    codec that stays inside the capacity it is given (it may leave more
    bytes there than it reports).  Whatever the call returns, the
    destination keeps its length and every byte from offset [d_len] on
    keeps its value; and a return value [C] other than [s_len] lies between
    8 and [d_len]. *)
Theorem compress_within_d_len s_start s_len d_len n m C m' :
  8 <= d_len < 2 ^ 64 ->
  (forall r out,
      ZSTD_compressCCtx (d_len - 8) (sub_buffer s_start 0 s_len) s_len
        (compress_levelcookie ZIO_ZSTDLVL_DEFAULT_value n) = (r, out) ->
      Z.of_nat (length out) <= d_len - 8
      /\ (ZSTD_isError r = false -> 0 <= r <= d_len - 8)) ->
  zstd_compress big_endian ZIO_ZSTDLVL_DEFAULT_value k s_start s_len d_len n m
  = Some (C, m') ->
  length (dst m') = length (dst m)
  /\ drop (Z.to_nat d_len) (dst m') = drop (Z.to_nat d_len) (dst m)
  /\ (C <> s_len -> 8 <= C <= d_len).
Proof.
  intros Hd Hcodec Hrun. rewrite zstd_compress_unfold in Hrun.
  cbv zeta in Hrun.
  assert (to_size_t (d_len - 4 - 4) = d_len - 8) as Hcap
    by (unfold to_size_t, SIZE_MOD; rewrite Z.mod_small; lia).
  rewrite Hcap in Hrun.
  destruct (cctx_memory k); [|by injection Hrun as <- <-].
  destruct (ZSTD_compressCCtx _ _ _ _) as [c_len out] eqn:Ec.
  destruct (Hcodec _ _ eq_refl) as [Hout Hret].
  destruct (store_bytes (dst m) 8 out) as [d1|] eqn:E1; [|done].
  pose proof (store_bytes_length _ _ _ _ E1) as Hl1.
  assert (drop (Z.to_nat d_len) d1 = drop (Z.to_nat d_len) (dst m)) as Hd1
    by (apply (store_bytes_drop _ _ _ _ _ E1); lia).
  destruct (ZSTD_isError c_len); [by injection Hrun as <- <-|].
  destruct (store_bytes d1 0 _) as [d2|] eqn:E2; [|done].
  destruct (store_bytes d2 4 _) as [d3|] eqn:E3; [|done].
  injection Hrun as <- <-. cbn [dst].
  pose proof (store_bytes_length _ _ _ _ E2) as Hl2.
  pose proof (store_bytes_length _ _ _ _ E3) as Hl3.
  split; [congruence|]. split.
  - rewrite (store_bytes_drop _ _ _ _ (Z.to_nat d_len) E3)
      by (rewrite be_bytes_length; lia).
    rewrite (store_bytes_drop _ _ _ _ (Z.to_nat d_len) E2)
      by (rewrite be_bytes_length; lia).
    exact Hd1.
  - intros _. specialize (Hret eq_refl).
    unfold to_size_t, SIZE_MOD. rewrite Z.mod_small; lia.
Qed.

End FrameExtent.

Section FrameBounds.
Context {lib : ZSTD_lib} {contract : ZSTD_contract lib}.
Variable big_endian : bool.
Variable ZIO_ZSTDLVL_DEFAULT_value : Z.
Variable k : kernel.

(** X10: compression followed by [zstd_decompress_level]: on the first [C]
    bytes of a frame made from [B] at level [lvl] the call returns 0,
    restores [B] and reports the level that was requested, the default level
    when INHERIT or DEFAULT was. *)
Theorem compress_decompress_level_reports B L d0 t0 lvl C m' :
  0 <= ZIO_ZSTDLVL_DEFAULT_value ->
  ~ (1 <= ZIO_ZSTDLVL_DEFAULT_value <= 19) ->
  Z.of_nat (length B) = L -> L < 2 ^ 32 ->
  Z.of_nat (length d0) = L ->
  zstd_compress big_endian ZIO_ZSTDLVL_DEFAULT_value k B L L lvl
    (Machine d0 t0) = Some (C, m') ->
  C <> L ->
  dctx_memory k = true ->
  forall d_len out0 t1 v,
    L <= d_len -> Z.of_nat (length out0) = d_len ->
    exists m'',
      zstd_decompress_level k (take (Z.to_nat C) (dst m')) C d_len (Some v)
        (Machine out0 t1) = Some ((0, Some (effective_level lvl)), m'')
      /\ take (Z.to_nat L) (dst m'') = B.
Proof.
  intros Hd0' Hd HB HL Hd0 Hrun Hne Hmem d_len out0 t1 v Hcap Hout0.
  assert (Z.of_nat (length (dst (Machine d0 t0))) < 2 ^ 32) as Hdst
    by (cbn [dst]; lia).
  destruct (compress_success_frame _ _ _ _ _ _ _ _ _ _ Hdst Hrun Hne)
    as (c_len & out & Ec & Ee & Hlen & Hfit & -> & Hframe).
  cbn [dst] in Hfit.
  rewrite compress_levelcookie_plain in Ec, Hframe by done.
  pose proof (zstd_enum_to_cookie_range lvl) as [Hr _].
  pose proof (to_uint32_range (zstd_enum_to_cookie lvl)) as Hck.
  assert (take (Z.to_nat (c_len + 8)) (dst m')
          = be_bytes c_len ++ be_bytes (to_uint32 (zstd_enum_to_cookie lvl))
              ++ out) as ->.
  { rewrite Hframe, !app_assoc. apply take_app_length'.
    rewrite !length_app, !be_bytes_length. lia. }
  rewrite (zstd_decompress_level_unfold k _ _ _ _ _ c_len
             (to_uint32 (zstd_enum_to_cookie lvl))).
  2: { apply BE_IN32_be_bytes; lia. }
  2: { by rewrite BE_IN32_skip, BE_IN32_be_bytes
         by auto using be_bytes_length. }
  destruct (Z.ltb_spec (c_len + 8) (c_len + 4)) as [|_]; [lia|].
  rewrite Hmem. cbv zeta.
  assert (sub_buffer
            (be_bytes c_len ++ be_bytes (to_uint32 (zstd_enum_to_cookie lvl))
               ++ out) 8 c_len = out) as ->.
  { unfold sub_buffer. change (Z.to_nat 8) with (4 + 4)%nat.
    rewrite (drop_app_add' (be_bytes c_len)),
      (drop_app_length' (be_bytes _)) by done.
    rewrite Hlen, Nat2Z.id. apply firstn_all. }
  assert (sub_buffer B 0 L = B) as HsubB.
  { unfold sub_buffer. rewrite drop_0, <- HB, Nat2Z.id. apply firstn_all. }
  rewrite HsubB, <- HB in Ec.
  assert (Z.of_nat (length B) <= d_len) as HBcap by lia.
  destruct (decompress_compress _ _ _ _ _ d_len Ec Ee HBcap) as [Hdec Hok].
  rewrite Hdec. cbn [dst trace].
  rewrite store_bytes_Some by lia. rewrite Hok.
  rewrite to_int32_to_uint32 by lia. rewrite cookie_to_enum_to_cookie.
  eexists. split; [reflexivity|]. cbn [dst].
  change (Z.to_nat 0) with 0%nat. rewrite take_0, app_nil_l.
  apply take_app_length'. lia.
Qed.

End FrameBounds.

(** Sixteen zero bytes into the first 16 bytes of a 20-byte destination,
    with a codec that leaves two bytes behind its frame: the frame has 10
    bytes, bytes 10 and 11 are overwritten as well, and the four bytes from
    offset 16 on are untouched. *)
Lemma compress_within_d_len_witness :
  zstd_compress (lib := untidy_codec) false 250 roomy zeros16 16 16
    ZIO_ZSTDLVL_FAST_3 (Machine (replicate 20 170) [])
  = Some (10,
          Machine [0; 0; 0; 2; 255; 255; 255; 253; 16; 0; 85; 85;
                   170; 170; 170; 170; 170; 170; 170; 170]
            [ev_createCCtx; ev_compressCCtx 8 8 16 (-3); ev_freeCCtx])
  /\ length [0; 0; 0; 2; 255; 255; 255; 253; 16; 0; 85; 85;
             170; 170; 170; 170; 170; 170; 170; 170]
     = length (replicate 20 170)
  /\ drop (Z.to_nat 16) [0; 0; 0; 2; 255; 255; 255; 253; 16; 0; 85; 85;
                         170; 170; 170; 170; 170; 170; 170; 170]
     = drop (Z.to_nat 16) (replicate 20 170)
  /\ (10 <> 16 -> 8 <= 10 <= 16).
Proof.
  split; [reflexivity|].
  apply (compress_within_d_len (lib := untidy_codec) false 250 roomy zeros16
           16 16 ZIO_ZSTDLVL_FAST_3 (Machine (replicate 20 170) []) 10
           (Machine [0; 0; 0; 2; 255; 255; 255; 253; 16; 0; 85; 85;
                     170; 170; 170; 170; 170; 170; 170; 170]
              [ev_createCCtx; ev_compressCCtx 8 8 16 (-3); ev_freeCCtx])).
  - lia.
  - intros r out Hcall. vm_compute in Hcall. injection Hcall as <- <-.
    split; [simpl; lia|]. intros _. lia.
  - reflexivity.
Defined.

Lemma compress_decompress_level_reports_witness :
  exists m'',
    zstd_decompress_level (lib := run_codec) roomy
      (take (Z.to_nat 10) [0; 0; 0; 2; 0; 0; 0; 3; 16; 0;
                           170; 170; 170; 170; 170; 170]) 10 16
      (Some ZIO_ZSTDLVL_19) (Machine scratch16 [])
    = Some ((0, Some (effective_level ZIO_ZSTDLVL_DEFAULT)), m'')
    /\ take (Z.to_nat 16) (dst m'') = zeros16.
Proof.
  apply (compress_decompress_level_reports (lib := run_codec) false 250 roomy
           zeros16 16 scratch16 [] ZIO_ZSTDLVL_DEFAULT 10
           (Machine [0; 0; 0; 2; 0; 0; 0; 3; 16; 0;
                     170; 170; 170; 170; 170; 170]
              [ev_createCCtx; ev_compressCCtx 8 8 16 3; ev_freeCCtx])).
  - lia.
  - lia.
  - reflexivity.
  - lia.
  - reflexivity.
  - reflexivity.
  - discriminate.
  - reflexivity.
  - lia.
  - reflexivity.
Defined.

(** ** The allocator: pool, heap and fallback *)

Lemma get_set_mempool which slots st :
  get_mempool which (set_mempool which slots st) = Some slots.
Proof. by destruct which. Qed.

(** The first loop leaves an array alone when every barrier is held. *)
Lemma first_pass_all_locked now sz slots : forall chosen st,
  Forall (fun p => pool_barrier p = true) slots ->
  first_pass now sz slots chosen st = (chosen, slots, st).
Proof.
  induction slots as [|p rest IH]; intros chosen st Hall; [done|].
  apply Forall_cons in Hall as [Hp Hrest]. simpl.
  unfold first_pass_visit. rewrite Hp. by rewrite IH.
Qed.

(** The second loop finds no slot when every barrier is held. *)
Lemma second_pass_all_locked which now sz slots : forall i st,
  Forall (fun p => pool_barrier p = true) slots ->
  second_pass which now sz i slots st = None.
Proof.
  induction slots as [|p rest IH]; intros i st Hall; [done|].
  apply Forall_cons in Hall as [Hp Hrest]. simpl.
  rewrite Hp. by rewrite IH.
Qed.

(** The first loop leaves an array of empty unlocked slots as it is. *)
Lemma first_pass_all_empty now sz n : forall chosen st,
  first_pass now sz (replicate n (Pool None 0 false 0)) chosen st
  = (chosen, replicate n (Pool None 0 false 0), st).
Proof.
  induction n as [|n IH]; intros chosen st; [done|].
  simpl. unfold first_pass_visit, expire_slot. simpl.
  destruct chosen; by rewrite IH.
Qed.

(** X11: [zstd_alloc] never touches the fallback reservation, whatever
    the state of pool and heap, and with no pool array (before
    [zstd_init], after [zstd_fini]) it returns NULL without asking the heap
    and without changing anything. *)
Theorem zstd_alloc_no_fallback sz now st r st' :
  zstd_alloc sz now st = (r, st') ->
  zstd_dctx_fallback st' = zstd_dctx_fallback st
  /\ (zstd_mempool_cctx st = None -> r = None /\ st' = st).
Proof.
  unfold zstd_alloc.
  destruct (zstd_mempool_alloc mempool_cctx _ now st) as [z st1] eqn:E.
  intros Hr. assert (st1 = st') as <- by (by destruct z; injection Hr).
  split; [eapply zstd_mempool_alloc_fallback, E|].
  intros Hnull. unfold zstd_mempool_alloc in E. cbn [get_mempool] in E.
  rewrite Hnull in E. injection E as <- <-. by injection Hr as <-.
Qed.

Lemma zstd_alloc_no_fallback_witness :
  zstd_dctx_fallback (boot_state [Some 1000])
  = zstd_dctx_fallback (boot_state [Some 1000])
  /\ (zstd_mempool_cctx (boot_state [Some 1000]) = None ->
      @None Z = None /\ boot_state [Some 1000] = boot_state [Some 1000]).
Proof.
  apply (zstd_alloc_no_fallback 512 7 (boot_state [Some 1000]) None
           (boot_state [Some 1000])).
  reflexivity.
Defined.

(** X12: when pool, heap and fallback slab all fail (the slab is NULL if
    its allocation failed in [zstd_meminit]) [zstd_dctx_alloc] returns
    NULL, and it returns with the fallback barrier held: the next call that
    reaches the last resort waits for the barrier and gives no result. *)
Theorem dctx_alloc_null_keeps_barrier sz now st st1 st2 :
  zstd_mempool_alloc mempool_dctx (to_size_t (sizeof_zstd_kmem + sz))
    now st = (None, st1) ->
  vmem_alloc st1 = (None, st2) ->
  fallback_mem (zstd_dctx_fallback st) = None ->
  fallback_barrier (zstd_dctx_fallback st) = false ->
  exists st',
    zstd_dctx_alloc sz now st = Some (None, st')
    /\ fallback_barrier (zstd_dctx_fallback st') = true
    /\ forall sz' now' st5 st6,
        zstd_mempool_alloc mempool_dctx (to_size_t (sizeof_zstd_kmem + sz'))
          now' st' = (None, st5) ->
        vmem_alloc st5 = (None, st6) ->
        zstd_dctx_alloc sz' now' st' = None.
Proof.
  intros Hpool Hheap Hmem Hbar.
  pose proof (zstd_mempool_alloc_fallback _ _ _ _ _ _ Hpool) as H1.
  pose proof (vmem_alloc_fallback _ _ _ Hheap) as H2.
  exists (set_fallback
            (Fallback (mem_size (zstd_dctx_fallback st)) None true) st2).
  split; [|split].
  - unfold zstd_dctx_alloc. rewrite Hpool, Hheap.
    by rewrite H2, H1, Hbar, Hmem.
  - reflexivity.
  - intros sz' now' st5 st6 Hpool' Hheap'.
    pose proof (zstd_mempool_alloc_fallback _ _ _ _ _ _ Hpool') as H5.
    pose proof (vmem_alloc_fallback _ _ _ Hheap') as H6.
    unfold zstd_dctx_alloc. rewrite Hpool', Hheap', H6, H5. reflexivity.
Qed.

Lemma dctx_alloc_null_keeps_barrier_witness :
  let st := zstd_init (lib := run_codec) 4096 1 (boot_state []) in
  exists st',
    zstd_dctx_alloc 512 7 st = Some (None, st')
    /\ fallback_barrier (zstd_dctx_fallback st') = true
    /\ forall sz' now' st5 st6,
        zstd_mempool_alloc mempool_dctx (to_size_t (sizeof_zstd_kmem + sz'))
          now' st' = (None, st5) ->
        vmem_alloc st5 = (None, st6) ->
        zstd_dctx_alloc sz' now' st' = None.
Proof.
  intros st.
  apply (dctx_alloc_null_keeps_barrier 512 7 st
           (snd (zstd_mempool_alloc mempool_dctx
                   (to_size_t (sizeof_zstd_kmem + 512)) 7 st))
           (snd (zstd_mempool_alloc mempool_dctx
                   (to_size_t (sizeof_zstd_kmem + 512)) 7 st)));
    reflexivity.
Defined.

(** The state [zstd_dctx_alloc] leaves on its last-resort path. *)
Lemma zstd_dctx_alloc_last_resort sz now st st1 st2 z :
  zstd_mempool_alloc mempool_dctx (to_size_t (sizeof_zstd_kmem + sz))
    now st = (None, st1) ->
  vmem_alloc st1 = (None, st2) ->
  fallback_mem (zstd_dctx_fallback st) = Some z ->
  fallback_barrier (zstd_dctx_fallback st) = false ->
  let st3 :=
    set_fallback (Fallback (mem_size (zstd_dctx_fallback st)) (Some z) true)
      st2 in
  zstd_dctx_alloc sz now st
  = Some (Some (z + sizeof_zstd_kmem),
          set_kmem
            (<[z := Kmem ZSTD_KMEM_DCTX (to_size_t (sizeof_zstd_kmem + sz))
                      (kmem_pool (kmem_at st3 z))]> (kmem st3)) st3).
Proof.
  intros Hpool Hheap Hmem Hfree.
  pose proof (zstd_mempool_alloc_fallback _ _ _ _ _ _ Hpool) as H1.
  pose proof (vmem_alloc_fallback _ _ _ Hheap) as H2.
  unfold zstd_dctx_alloc. rewrite Hpool, Hheap.
  by rewrite H2, H1, Hfree, Hmem.
Qed.

(** X13: the fallback slab goes to one consumer at a time and comes back.
    After [zstd_dctx_alloc] has handed it out, a request that again finds
    pool and heap failing waits for the barrier; [zstd_free] of the slab
    releases the barrier, gives nothing back to the kernel and leaves the
    reservation exactly as it was before the allocation. *)
Theorem fallback_slab_round_trip sz now st st1 st2 z :
  zstd_mempool_alloc mempool_dctx (to_size_t (sizeof_zstd_kmem + sz))
    now st = (None, st1) ->
  vmem_alloc st1 = (None, st2) ->
  fallback_mem (zstd_dctx_fallback st) = Some z ->
  fallback_barrier (zstd_dctx_fallback st) = false ->
  exists st3 st4,
    zstd_dctx_alloc sz now st = Some (Some (z + sizeof_zstd_kmem), st3)
    /\ (forall sz' now' st5 st6,
          zstd_mempool_alloc mempool_dctx
            (to_size_t (sizeof_zstd_kmem + sz')) now' st3 = (None, st5) ->
          vmem_alloc st5 = (None, st6) ->
          zstd_dctx_alloc sz' now' st3 = None)
    /\ zstd_free (z + sizeof_zstd_kmem) st3 = Some st4
    /\ zstd_dctx_fallback st4 = zstd_dctx_fallback st
    /\ released st4 = released st3.
Proof.
  intros Hpool Hheap Hmem Hfree.
  pose proof (zstd_mempool_alloc_fallback _ _ _ _ _ _ Hpool) as H1.
  pose proof (vmem_alloc_fallback _ _ _ Hheap) as H2.
  pose proof (zstd_dctx_alloc_last_resort _ _ _ _ _ _ Hpool Hheap Hmem Hfree)
    as Halloc. cbv zeta in Halloc.
  eexists _, _. split; [exact Halloc|]. split; [|split].
  - intros sz' now' st5 st6 Hpool' Hheap'.
    pose proof (zstd_mempool_alloc_fallback _ _ _ _ _ _ Hpool') as H5.
    pose proof (vmem_alloc_fallback _ _ _ Hheap') as H6.
    unfold zstd_dctx_alloc. rewrite Hpool', Hheap', H6, H5. reflexivity.
  - unfold zstd_free.
    replace (z + sizeof_zstd_kmem - sizeof_zstd_kmem) with z by lia.
    cbn [kmem set_kmem]. rewrite lookup_insert_eq. cbn [kmem_type].
    reflexivity.
  - cbn. split; [|done].
    destruct (zstd_dctx_fallback st) as [ms fm fbar]. cbn in *.
    by subst.
Qed.

Lemma fallback_slab_round_trip_witness :
  let st := zstd_init (lib := run_codec) 4096 1 (boot_state [Some 1000]) in
  exists st3 st4,
    zstd_dctx_alloc 100000 50 st = Some (Some (1000 + sizeof_zstd_kmem), st3)
    /\ (forall sz' now' st5 st6,
          zstd_mempool_alloc mempool_dctx
            (to_size_t (sizeof_zstd_kmem + sz')) now' st3 = (None, st5) ->
          vmem_alloc st5 = (None, st6) ->
          zstd_dctx_alloc sz' now' st3 = None)
    /\ zstd_free (1000 + sizeof_zstd_kmem) st3 = Some st4
    /\ zstd_dctx_fallback st4 = zstd_dctx_fallback st
    /\ released st4 = released st3.
Proof.
  intros st.
  apply (fallback_slab_round_trip 100000 50 st
           (snd (zstd_mempool_alloc mempool_dctx
                   (to_size_t (sizeof_zstd_kmem + 100000)) 50 st))
           (snd (zstd_mempool_alloc mempool_dctx
                   (to_size_t (sizeof_zstd_kmem + 100000)) 50 st))).
  - reflexivity.
  - reflexivity.
  - reflexivity.
  - reflexivity.
Defined.

(** X14: with every slot of the compression pool in use [zstd_alloc] takes
    its buffer from the heap, tagged [ZSTD_KMEM_DEFAULT] and owned by no
    slot, and leaves the slots alone; [zstd_free] gives exactly that buffer
    back to the kernel, with the size it was allocated with. *)
Theorem unpooled_round_trip sz now st slots z h :
  zstd_mempool_cctx st = Some slots ->
  Forall (fun p => pool_barrier p = true) slots ->
  heap st = Some z :: h ->
  exists st1 st2,
    zstd_alloc sz now st = (Some (z + sizeof_zstd_kmem), st1)
    /\ zstd_mempool_cctx st1 = Some slots
    /\ heap st1 = h
    /\ kmem st1 !! z
       = Some (Kmem ZSTD_KMEM_DEFAULT (to_size_t (sizeof_zstd_kmem + sz)) None)
    /\ zstd_free (z + sizeof_zstd_kmem) st1 = Some st2
    /\ released st2
       = released st ++ [(z, to_size_t (sizeof_zstd_kmem + sz))]
    /\ kmem st2 !! z = None
    /\ zstd_mempool_cctx st2 = Some slots.
Proof.
  intros Hpool Hlocked Hheap.
  unfold zstd_alloc, zstd_mempool_alloc. cbn [get_mempool]. rewrite Hpool.
  rewrite first_pass_all_locked by done.
  rewrite second_pass_all_locked by done.
  unfold vmem_alloc. cbn [heap set_mempool]. rewrite Hheap.
  eexists _, _. split; [reflexivity|].
  split; [reflexivity|]. split; [reflexivity|].
  split; [cbn; apply lookup_insert_eq|].
  unfold zstd_free.
  replace (z + sizeof_zstd_kmem - sizeof_zstd_kmem) with z by lia.
  cbn [kmem set_kmem]. rewrite lookup_insert_eq. cbn [kmem_type kmem_size].
  split; [reflexivity|]. cbn. split; [done|]. split; [|done].
  apply lookup_delete_eq.
Qed.

Lemma unpooled_round_trip_witness :
  let slots := [Pool (Some 5000) 64 true 130; Pool None 0 true 0] in
  let st := State 2 (Fallback 0 None false) (Some slots) None ∅
              [Some 7000] [] in
  exists st1 st2,
    zstd_alloc 100 10 st = (Some (7000 + sizeof_zstd_kmem), st1)
    /\ zstd_mempool_cctx st1 = Some slots
    /\ heap st1 = []
    /\ kmem st1 !! 7000
       = Some (Kmem ZSTD_KMEM_DEFAULT (to_size_t (sizeof_zstd_kmem + 100)) None)
    /\ zstd_free (7000 + sizeof_zstd_kmem) st1 = Some st2
    /\ released st2
       = released st ++ [(7000, to_size_t (sizeof_zstd_kmem + 100))]
    /\ kmem st2 !! 7000 = None
    /\ zstd_mempool_cctx st2 = Some slots.
Proof.
  intros slots st.
  apply (unpooled_round_trip 100 10 st slots 7000 []).
  - reflexivity.
  - repeat constructor.
  - reflexivity.
Defined.

Lemma mempool_alloc_fresh_slot nb now st n z h :
  zstd_mempool_cctx st = Some (replicate (S n) (Pool None 0 false 0)) ->
  heap st = Some z :: h ->
  zstd_mempool_alloc mempool_cctx nb now st
  = (Some z,
     State (pool_count st) (zstd_dctx_fallback st)
       (Some (Pool (Some z) nb true (now + ZSTD_POOL_TIMEOUT)
              :: replicate n (Pool None 0 false 0)))
       (zstd_mempool_dctx st)
       (<[z := Kmem ZSTD_KMEM_POOL nb (Some (mempool_cctx, 0%nat))]> (kmem st))
       h (released st)).
Proof.
  destruct st as [pc fb cc dc km hp rel].
  cbn [zstd_mempool_cctx heap pool_count zstd_dctx_fallback zstd_mempool_dctx
         kmem released].
  intros -> ->.
  unfold zstd_mempool_alloc. cbn [get_mempool zstd_mempool_cctx].
  rewrite first_pass_all_empty. reflexivity.
Qed.

Lemma mempool_alloc_reuse_slot nb nb' now' st n z t :
  zstd_mempool_cctx st
  = Some (Pool (Some z) nb false t :: replicate n (Pool None 0 false 0)) ->
  nb' <= nb ->
  zstd_mempool_alloc mempool_cctx nb' now' st
  = (Some z,
     State (pool_count st) (zstd_dctx_fallback st)
       (Some (Pool (Some z) nb true (now' + ZSTD_POOL_TIMEOUT)
              :: replicate n (Pool None 0 false 0)))
       (zstd_mempool_dctx st) (kmem st) (heap st) (released st)).
Proof.
  destruct st as [pc fb cc dc km hp rel].
  cbn [zstd_mempool_cctx heap pool_count zstd_dctx_fallback zstd_mempool_dctx
         kmem released].
  intros -> Hle.
  unfold zstd_mempool_alloc. cbn [get_mempool zstd_mempool_cctx first_pass].
  unfold first_pass_visit. cbn [pool_barrier pool_mem pool_size].
  destruct (Z.leb_spec nb' nb) as [_|]; [|lia].
  rewrite first_pass_all_empty. reflexivity.
Qed.

(** X15: a pooled buffer is cached.  In a pool of empty unlocked slots, as
    [zstd_init] leaves it, [zstd_alloc] fills the first slot from the heap,
    records the slot in the header of the buffer and returns with the
    barrier of that slot held; [zstd_free] releases the barrier, keeps the
    buffer in the slot and gives nothing back to the kernel; and the next
    [zstd_alloc] of at most that size returns the same buffer without
    asking the heap, the barrier held again and the deadline set anew to
    120 seconds from then. *)
Theorem pooled_buffer_reuse sz sz' now now' st n z h :
  zstd_mempool_cctx st = Some (replicate (S n) (Pool None 0 false 0)) ->
  heap st = Some z :: h ->
  0 <= sz' <= sz -> sz < 2 ^ 64 - sizeof_zstd_kmem ->
  exists st1 st2 st3,
    zstd_alloc sz now st = (Some (z + sizeof_zstd_kmem), st1)
    /\ zstd_mempool_cctx st1
       = Some (Pool (Some z) (sizeof_zstd_kmem + sz) true
                 (now + ZSTD_POOL_TIMEOUT)
               :: replicate n (Pool None 0 false 0))
    /\ kmem st1 !! z
       = Some (Kmem ZSTD_KMEM_POOL (sizeof_zstd_kmem + sz)
                 (Some (mempool_cctx, 0%nat)))
    /\ heap st1 = h
    /\ zstd_free (z + sizeof_zstd_kmem) st1 = Some st2
    /\ released st2 = released st
    /\ zstd_mempool_cctx st2
       = Some (Pool (Some z) (sizeof_zstd_kmem + sz) false
                 (now + ZSTD_POOL_TIMEOUT)
               :: replicate n (Pool None 0 false 0))
    /\ zstd_alloc sz' now' st2 = (Some (z + sizeof_zstd_kmem), st3)
    /\ heap st3 = h
    /\ released st3 = released st
    /\ zstd_mempool_cctx st3
       = Some (Pool (Some z) (sizeof_zstd_kmem + sz) true
                 (now' + ZSTD_POOL_TIMEOUT)
               :: replicate n (Pool None 0 false 0)).
Proof.
  intros Hpool Hheap Hsz Hmax.
  assert (to_size_t (sizeof_zstd_kmem + sz) = sizeof_zstd_kmem + sz) as Hn
    by (unfold to_size_t, SIZE_MOD, sizeof_zstd_kmem in *;
        rewrite Z.mod_small; lia).
  assert (to_size_t (sizeof_zstd_kmem + sz') = sizeof_zstd_kmem + sz') as Hn'
    by (unfold to_size_t, SIZE_MOD, sizeof_zstd_kmem in *;
        rewrite Z.mod_small; lia).
  unfold zstd_alloc. rewrite Hn, Hn'.
  rewrite (mempool_alloc_fresh_slot _ _ _ _ _ _ Hpool Hheap).
  eexists _, _, _. split; [reflexivity|].
  split; [reflexivity|].
  split; [cbn [kmem]; apply lookup_insert_eq|].
  split; [reflexivity|].
  unfold zstd_free, zstd_mempool_free.
  replace (z + sizeof_zstd_kmem - sizeof_zstd_kmem) with z by lia.
  cbn [kmem]. rewrite lookup_insert_eq.
  cbn [kmem_type get_mempool zstd_mempool_cctx lookup list_lookup].
  split; [reflexivity|]. split; [reflexivity|]. split; [reflexivity|].
  erewrite mempool_alloc_reuse_slot; [|reflexivity|cbn [pool_size]; lia].
  split; [reflexivity|]. split; [reflexivity|]. split; reflexivity.
Qed.

(** After [zstd_init] on one processor: 500 bytes at time 10, freed, then
    300 bytes at time 500, past the deadline 130 of the slot: the buffer at
    2000 is handed out both times. *)
Lemma pooled_buffer_reuse_witness :
  let st :=
    zstd_init (lib := run_codec) 4096 1 (boot_state [Some 1000; Some 2000]) in
  exists st1 st2 st3,
    zstd_alloc 500 10 st = (Some (2000 + sizeof_zstd_kmem), st1)
    /\ zstd_mempool_cctx st1
       = Some (Pool (Some 2000) (sizeof_zstd_kmem + 500) true
                 (10 + ZSTD_POOL_TIMEOUT)
               :: replicate 3 (Pool None 0 false 0))
    /\ kmem st1 !! 2000
       = Some (Kmem ZSTD_KMEM_POOL (sizeof_zstd_kmem + 500)
                 (Some (mempool_cctx, 0%nat)))
    /\ heap st1 = []
    /\ zstd_free (2000 + sizeof_zstd_kmem) st1 = Some st2
    /\ released st2 = released st
    /\ zstd_mempool_cctx st2
       = Some (Pool (Some 2000) (sizeof_zstd_kmem + 500) false
                 (10 + ZSTD_POOL_TIMEOUT)
               :: replicate 3 (Pool None 0 false 0))
    /\ zstd_alloc 300 500 st2 = (Some (2000 + sizeof_zstd_kmem), st3)
    /\ heap st3 = []
    /\ released st3 = released st
    /\ zstd_mempool_cctx st3
       = Some (Pool (Some 2000) (sizeof_zstd_kmem + 500) true
                 (500 + ZSTD_POOL_TIMEOUT)
               :: replicate 3 (Pool None 0 false 0)).
Proof.
  intros st.
  apply (pooled_buffer_reuse 500 300 10 500 st 3 2000 []).
  - reflexivity.
  - reflexivity.
  - lia.
  - reflexivity.
Defined.

(** What a state keeps when only headers, heap and released list change. *)
Lemma vmem_alloc_keeps st r st' :
  vmem_alloc st = (r, st') ->
  zstd_mempool_cctx st' = zstd_mempool_cctx st
  /\ zstd_mempool_dctx st' = zstd_mempool_dctx st
  /\ released st' = released st.
Proof. unfold vmem_alloc. destruct (heap st); by intros [= _ <-]. Qed.

Lemma expire_slot_keeps now p st p' st' :
  expire_slot now p st = (p', st') ->
  zstd_mempool_cctx st' = zstd_mempool_cctx st
  /\ zstd_mempool_dctx st' = zstd_mempool_dctx st
  /\ exists l, released st' = released st ++ l.
Proof.
  unfold expire_slot. destruct (pool_mem p);
    [destruct (pool_timeout p <? now)|]; intros [= _ <-]; cbn;
    repeat split; try done; eauto using app_nil_r.
  all: exists []; by rewrite app_nil_r.
Qed.

Lemma first_pass_visit_keeps now sz chosen p st c p' st' :
  first_pass_visit now sz chosen p st = (c, p', st') ->
  zstd_mempool_cctx st' = zstd_mempool_cctx st
  /\ zstd_mempool_dctx st' = zstd_mempool_dctx st
  /\ exists l, released st' = released st ++ l.
Proof.
  assert (zstd_mempool_cctx st = zstd_mempool_cctx st
          /\ zstd_mempool_dctx st = zstd_mempool_dctx st
          /\ exists l, released st = released st ++ l) as Hsame
    by (repeat split; exists []; by rewrite app_nil_r).
  unfold first_pass_visit. destruct (pool_barrier p); [by intros [= _ _ <-]|].
  destruct chosen, (pool_mem p); try destruct (sz <=? pool_size p);
    try (by intros [= _ _ <-]);
    destruct (expire_slot now p st) as [p1 st1] eqn:E;
    intros [= _ _ <-]; eapply expire_slot_keeps, E.
Qed.

Lemma first_pass_keeps now sz slots : forall chosen st c slots' st',
  first_pass now sz slots chosen st = (c, slots', st') ->
  zstd_mempool_cctx st' = zstd_mempool_cctx st
  /\ zstd_mempool_dctx st' = zstd_mempool_dctx st
  /\ (exists l, released st' = released st ++ l)
  /\ length slots' = length slots.
Proof.
  induction slots as [|p rest IH]; intros chosen st c slots' st'; simpl.
  - intros [= _ <- <-]. repeat split. exists []. by rewrite app_nil_r.
  - destruct (first_pass_visit now sz chosen p st) as [[c1 p1] st1] eqn:E1.
    destruct (first_pass now sz rest c1 st1) as [[c2 rest2] st2] eqn:E2.
    intros [= _ <- <-].
    destruct (first_pass_visit_keeps _ _ _ _ _ _ _ _ E1)
      as (Hc1 & Hd1 & l1 & Hr1).
    destruct (IH _ _ _ _ _ E2) as (Hc2 & Hd2 & (l2 & Hr2) & Hlen).
    repeat split; [congruence..| |simpl; congruence].
    exists (l1 ++ l2). by rewrite Hr2, Hr1, app_assoc.
Qed.

Lemma second_pass_keeps which now sz slots : forall i st r slots' st',
  second_pass which now sz i slots st = Some (r, slots', st') ->
  zstd_mempool_cctx st' = zstd_mempool_cctx st
  /\ zstd_mempool_dctx st' = zstd_mempool_dctx st
  /\ released st' = released st
  /\ length slots' = length slots.
Proof.
  induction slots as [|p rest IH]; intros i st r slots' st'; simpl; [done|].
  assert (match second_pass which now sz (S i) rest st with
          | Some (r0, rest', st'0) => Some (r0, p :: rest', st'0)
          | None => None
          end = Some (r, slots', st') ->
          zstd_mempool_cctx st' = zstd_mempool_cctx st
          /\ zstd_mempool_dctx st' = zstd_mempool_dctx st
          /\ released st' = released st
          /\ length slots' = length (p :: rest)) as Hnext.
  { destruct (second_pass which now sz (S i) rest st)
      as [[[r0 rest'] st0]|] eqn:E; [|done].
    intros [= _ <- <-]. destruct (IH _ _ _ _ _ E) as (? & ? & ? & ?).
    repeat split; simpl; congruence. }
  destruct (pool_barrier p); [done|]. destruct (pool_mem p); [done|].
  destruct (vmem_alloc st) as [mem st1] eqn:Ev.
  destruct (vmem_alloc_keeps _ _ _ Ev) as (? & ? & ?).
  destruct mem; by intros [= _ <- <-].
Qed.

(** Both loops pass over a slot whose barrier is held. *)
Lemma first_pass_skips_locked now sz slots : forall i p chosen st c slots' st',
  slots !! i = Some p -> pool_barrier p = true ->
  first_pass now sz slots chosen st = (c, slots', st') ->
  slots' !! i = Some p.
Proof.
  induction slots as [|q rest IH]; intros i p chosen st c slots' st';
    [done|]. simpl.
  destruct (first_pass_visit now sz chosen q st) as [[c1 q1] st1] eqn:E1.
  destruct (first_pass now sz rest c1 st1) as [[c2 rest2] st2] eqn:E2.
  destruct i as [|i]; simpl.
  - intros [= ->] Hb [= _ <- _]. simpl.
    unfold first_pass_visit in E1. rewrite Hb in E1. by injection E1 as _ <- _.
  - intros Hi Hb [= _ <- _]. simpl. eapply IH; eauto.
Qed.

Lemma second_pass_skips_locked which now sz slots :
  forall j i p st r slots' st',
    slots !! i = Some p -> pool_barrier p = true ->
    second_pass which now sz j slots st = Some (r, slots', st') ->
    slots' !! i = Some p.
Proof.
  induction slots as [|q rest IH]; intros j i p st r slots' st'; [done|].
  simpl. intros Hi Hb.
  assert (match second_pass which now sz (S j) rest st with
          | Some (r0, rest', st'0) => Some (r0, q :: rest', st'0)
          | None => None
          end = Some (r, slots', st') -> slots' !! i = Some p) as Hnext.
  { destruct (second_pass which now sz (S j) rest st)
      as [[[r0 rest'] st0]|] eqn:E; [|done].
    intros [= _ <- _]. destruct i as [|i]; [done|]. simpl in *.
    eapply IH; eauto. }
  destruct (pool_barrier q) eqn:Hq; [done|]. destruct (pool_mem q); [done|].
  destruct (vmem_alloc st) as [mem st1].
  destruct i as [|i].
  - injection Hi as ->. congruence.
  - destruct mem; by intros [= _ <- _].
Qed.

Lemma get_mempool_other which other slots st :
  other <> which ->
  get_mempool other (set_mempool which slots st) = get_mempool other st.
Proof. by destruct which, other. Qed.

Lemma get_mempool_keeps which st st' :
  zstd_mempool_cctx st' = zstd_mempool_cctx st ->
  zstd_mempool_dctx st' = zstd_mempool_dctx st ->
  get_mempool which st' = get_mempool which st.
Proof. by destruct which. Qed.

(** X16: [zstd_mempool_alloc] respects the barriers and the bounds of the
    pool: a slot whose barrier is held by a consumer is left exactly as it
    is, buffer, size and deadline included; the array keeps its number of
    slots; and the other pool is not touched. *)
Theorem mempool_alloc_respects_barriers which sz now st slots r st' :
  get_mempool which st = Some slots ->
  zstd_mempool_alloc which sz now st = (r, st') ->
  exists slots',
    get_mempool which st' = Some slots'
    /\ length slots' = length slots
    /\ (forall i p, slots !! i = Some p -> pool_barrier p = true ->
                    slots' !! i = Some p)
    /\ (forall other, other <> which ->
                      get_mempool other st' = get_mempool other st).
Proof.
  intros Hpool. unfold zstd_mempool_alloc. rewrite Hpool.
  destruct (first_pass now sz slots None st) as [[chosen slots1] st1] eqn:E1.
  destruct (first_pass_keeps _ _ _ _ _ _ _ _ E1) as (Hc1 & Hd1 & _ & Hl1).
  pose proof (fun i p Hi Hb =>
                first_pass_skips_locked _ _ _ i p _ _ _ _ _ Hi Hb E1) as Hk1.
  destruct chosen as [m|].
  { intros [= _ <-]. exists slots1. rewrite get_set_mempool.
    repeat split; try done. intros other Ho.
    rewrite get_mempool_other by done. by apply get_mempool_keeps. }
  destruct (second_pass which now sz 0 slots1 (set_mempool which slots1 st1))
    as [[[r2 slots2] st2]|] eqn:E2.
  - intros [= _ <-].
    destruct (second_pass_keeps _ _ _ _ _ _ _ _ _ E2) as (Hc2 & Hd2 & _ & Hl2).
    exists slots2. rewrite get_set_mempool.
    repeat split; [congruence| |].
    + intros i p Hi Hb.
      eapply second_pass_skips_locked; [|done|exact E2]. eauto.
    + intros other Ho. rewrite get_mempool_other by done.
      rewrite (get_mempool_keeps other _ _ Hc2 Hd2).
      rewrite get_mempool_other by done. by apply get_mempool_keeps.
  - destruct (vmem_alloc (set_mempool which slots1 st1)) as [mem st3] eqn:Ev.
    destruct (vmem_alloc_keeps _ _ _ Ev) as (Hc3 & Hd3 & _).
    assert (get_mempool which st3 = Some slots1) as Hw
      by (rewrite (get_mempool_keeps which _ _ Hc3 Hd3);
          apply get_set_mempool).
    assert (forall other, other <> which ->
              get_mempool other st3 = get_mempool other st) as Ho.
    { intros other Hne. rewrite (get_mempool_keeps other _ _ Hc3 Hd3).
      rewrite get_mempool_other by done. by apply get_mempool_keeps. }
    destruct mem; intros [= _ <-]; exists slots1;
      (split; [by destruct which|]); repeat split; try done;
      intros other Hne; specialize (Ho other Hne); by destruct other.
Qed.

Lemma mempool_alloc_respects_barriers_witness :
  let slots := [Pool (Some 5000) 64 true 130; Pool None 0 false 0] in
  let st := State 2 (Fallback 0 None false) (Some slots) None ∅
              [Some 7000] [] in
  exists slots',
    get_mempool mempool_cctx
      (snd (zstd_mempool_alloc mempool_cctx 32 500 st)) = Some slots'
    /\ length slots' = length slots
    /\ (forall i p, slots !! i = Some p -> pool_barrier p = true ->
                    slots' !! i = Some p)
    /\ (forall other, other <> mempool_cctx ->
          get_mempool other (snd (zstd_mempool_alloc mempool_cctx 32 500 st))
          = get_mempool other st).
Proof.
  intros slots st.
  apply (mempool_alloc_respects_barriers mempool_cctx 32 500 st slots
           (fst (zstd_mempool_alloc mempool_cctx 32 500 st))).
  - reflexivity.
  - reflexivity.
Defined.

Lemma first_pass_frees_stale now sz slots :
  forall i p m chosen st c slots' st',
    slots !! i = Some p ->
    pool_barrier p = false -> pool_mem p = Some m ->
    pool_timeout p < now -> pool_size p < sz ->
    first_pass now sz slots chosen st = (c, slots', st') ->
    (m, pool_size p) ∈ released st'.
Proof.
  induction slots as [|q rest IH]; intros i p m chosen st c slots' st';
    [done|]. simpl.
  destruct (first_pass_visit now sz chosen q st) as [[c1 q1] st1] eqn:E1.
  destruct (first_pass now sz rest c1 st1) as [[c2 rest2] st2] eqn:E2.
  destruct (first_pass_keeps _ _ _ _ _ _ _ _ E2) as (_ & _ & (l2 & Hr2) & _).
  destruct i as [|i]; simpl.
  - intros [= ->] Hb Hm Ht Hs [= _ _ <-]. rewrite Hr2.
    apply elem_of_app. left.
    unfold first_pass_visit, expire_slot in E1. rewrite Hb, Hm in E1.
    destruct (Z.leb_spec sz (pool_size p)); [lia|].
    destruct (Z.ltb_spec (pool_timeout p) now); [|lia].
    assert (st1 = kmem_free m (pool_size p) st) as ->
      by (by destruct chosen; injection E1 as _ _ <-).
    cbn. apply elem_of_app. right. apply list_elem_of_here.
  - intros Hi Hb Hm Ht Hs [= _ _ <-]. eapply IH; eauto.
Qed.

(** X17: [zstd_mempool_alloc] gives stale buffers back.  A buffer in an
    unlocked slot whose deadline has passed and which is too small for the
    request is handed to [kmem_free] with the size of its slot, whatever the
    call returns. *)
Theorem mempool_alloc_frees_stale which sz now st slots i p m r st' :
  get_mempool which st = Some slots ->
  slots !! i = Some p ->
  pool_barrier p = false -> pool_mem p = Some m ->
  pool_timeout p < now -> pool_size p < sz ->
  zstd_mempool_alloc which sz now st = (r, st') ->
  (m, pool_size p) ∈ released st'.
Proof.
  intros Hpool Hi Hb Hm Ht Hs. unfold zstd_mempool_alloc. rewrite Hpool.
  destruct (first_pass now sz slots None st) as [[chosen slots1] st1] eqn:E1.
  pose proof (first_pass_frees_stale _ _ _ _ _ _ _ _ _ _ _
                Hi Hb Hm Ht Hs E1) as Hin.
  assert (released (set_mempool which slots1 st1) = released st1) as Hset
    by (by destruct which).
  destruct chosen; [intros [= _ <-]; by rewrite Hset|].
  destruct (second_pass which now sz 0 slots1 (set_mempool which slots1 st1))
    as [[[r2 slots2] st2]|] eqn:E2.
  - intros [= _ <-].
    destruct (second_pass_keeps _ _ _ _ _ _ _ _ _ E2) as (_ & _ & Hr2 & _).
    assert (released (set_mempool which slots2 st2) = released st2) as ->
      by (by destruct which).
    by rewrite Hr2, Hset.
  - destruct (vmem_alloc (set_mempool which slots1 st1)) as [mem st3] eqn:Ev.
    destruct (vmem_alloc_keeps _ _ _ Ev) as (_ & _ & Hr3).
    destruct mem; intros [= _ <-]; cbn; by rewrite Hr3, Hset.
Qed.

(** X18: decompression does not fail for want of memory.  While the
    fallback slab exists and its barrier is free, [zstd_dctx_alloc] returns
    a buffer for every size, whatever the pool holds and whatever the heap
    answers. *)
Theorem dctx_alloc_never_null sz now st z :
  fallback_mem (zstd_dctx_fallback st) = Some z ->
  fallback_barrier (zstd_dctx_fallback st) = false ->
  exists ptr st', zstd_dctx_alloc sz now st = Some (Some ptr, st').
Proof.
  intros Hmem Hfree. unfold zstd_dctx_alloc.
  destruct (zstd_mempool_alloc mempool_dctx _ now st) as [[m|] st1] eqn:E1;
    [by eexists _, _|].
  destruct (vmem_alloc st1) as [[m|] st2] eqn:E2; [by eexists _, _|].
  rewrite (vmem_alloc_fallback _ _ _ E2).
  rewrite (zstd_mempool_alloc_fallback _ _ _ _ _ _ E1).
  rewrite Hfree, Hmem. by eexists _, _.
Qed.

Lemma release_pool_spec p st st' :
  release_pool p st = Some st' ->
  pool_barrier p = false
  /\ zstd_dctx_fallback st' = zstd_dctx_fallback st
  /\ (exists l, released st' = released st ++ l)
  /\ (forall m, pool_mem p = Some m -> (m, pool_size p) ∈ released st').
Proof.
  unfold release_pool. destruct (pool_barrier p); [done|].
  destruct (pool_mem p) as [m|]; intros [= <-]; cbn.
  - repeat split; [by eexists|]. intros ? [= <-].
    apply elem_of_app. right. apply list_elem_of_here.
  - repeat split; [|done]. exists []. by rewrite app_nil_r.
Qed.

Lemma release_pools_spec cs : forall ds st st',
  release_pools cs ds st = Some st' ->
  zstd_dctx_fallback st' = zstd_dctx_fallback st
  /\ (exists l, released st' = released st ++ l)
  /\ (forall p, p ∈ cs \/ p ∈ ds ->
                pool_barrier p = false
                /\ forall m, pool_mem p = Some m ->
                             (m, pool_size p) ∈ released st').
Proof.
  induction cs as [|c cs IH]; intros [|d ds] st st'; simpl; try done.
  - intros [= <-]. split; [done|].
    split; [exists []; by rewrite app_nil_r|].
    intros p [Hp|Hp]; by apply elem_of_nil in Hp.
  - destruct (release_pool c st) as [st1|] eqn:E1; [|done].
    destruct (release_pool d st1) as [st2|] eqn:E2; [|done].
    intros Hrest.
    destruct (release_pool_spec _ _ _ E1) as (Hb1 & Hf1 & (l1 & Hr1) & Hm1).
    destruct (release_pool_spec _ _ _ E2) as (Hb2 & Hf2 & (l2 & Hr2) & Hm2).
    destruct (IH _ _ _ Hrest) as (Hf3 & (l3 & Hr3) & Hall).
    split; [congruence|]. split.
    { exists (l1 ++ l2 ++ l3). rewrite Hr3, Hr2, Hr1.
      by rewrite <- !app_assoc. }
    intros p [Hp|Hp]; apply elem_of_cons in Hp as [->|Hp].
    + split; [done|]. intros m Hm. rewrite Hr3, Hr2.
      apply elem_of_app. left. apply elem_of_app. left. by apply Hm1.
    + apply Hall. by left.
    + split; [done|]. intros m Hm. rewrite Hr3.
      apply elem_of_app. left. by apply Hm2.
    + apply Hall. by right.
Qed.

Lemma release_pools_total cs : forall ds st,
  length cs = length ds ->
  Forall (fun p => pool_barrier p = false) cs ->
  Forall (fun p => pool_barrier p = false) ds ->
  is_Some (release_pools cs ds st).
Proof.
  induction cs as [|c cs IH]; intros [|d ds] st Hlen Hcs Hds;
    try done; simpl.
  apply Forall_cons in Hcs as [Hc Hcs]. apply Forall_cons in Hds as [Hd Hds].
  unfold release_pool at 1. rewrite Hc.
  destruct (pool_mem c); unfold release_pool at 1; rewrite Hd;
    destruct (pool_mem d); apply IH; auto.
Qed.

(** X19: [zstd_fini] leaves nothing behind.  With both arrays in place and
    no barrier held it returns; and whenever it returns, every slot was
    unlocked, every buffer still cached in a slot and the fallback slab
    have been handed to [kmem_free] with their sizes, and both array
    pointers are NULL.  The fallback record is not reset: it still names
    the slab that was freed. *)
Theorem zstd_fini_releases_everything st :
  (forall cs ds,
      zstd_mempool_cctx st = Some cs -> zstd_mempool_dctx st = Some ds ->
      length cs = length ds ->
      Forall (fun p => pool_barrier p = false) cs ->
      Forall (fun p => pool_barrier p = false) ds ->
      is_Some (zstd_fini st))
  /\ (forall st',
        zstd_fini st = Some st' ->
        zstd_mempool_cctx st' = None /\ zstd_mempool_dctx st' = None
        /\ zstd_dctx_fallback st' = zstd_dctx_fallback st
        /\ (forall z, fallback_mem (zstd_dctx_fallback st) = Some z ->
                      (z, mem_size (zstd_dctx_fallback st)) ∈ released st')
        /\ (forall which slots p,
              get_mempool which st = Some slots -> p ∈ slots ->
              pool_barrier p = false
              /\ forall m, pool_mem p = Some m ->
                           (m, pool_size p) ∈ released st')).
Proof.
  unfold zstd_fini, zstd_mempool_deinit.
  set (st0 := match fallback_mem (zstd_dctx_fallback st) with
              | Some z => kmem_free z (mem_size (zstd_dctx_fallback st)) st
              | None => st
              end).
  assert (zstd_mempool_cctx st0 = zstd_mempool_cctx st
          /\ zstd_mempool_dctx st0 = zstd_mempool_dctx st
          /\ zstd_dctx_fallback st0 = zstd_dctx_fallback st
          /\ forall z, fallback_mem (zstd_dctx_fallback st) = Some z ->
               (z, mem_size (zstd_dctx_fallback st)) ∈ released st0)
    as (Hc0 & Hd0 & Hf0 & Hslab).
  { subst st0. destruct (fallback_mem (zstd_dctx_fallback st)) as [z|];
      repeat split; try done.
    intros ? [= <-]. cbn. apply elem_of_app. right. apply list_elem_of_here. }
  rewrite Hc0, Hd0. split.
  - intros cs ds -> -> Hlen Hcs Hds.
    destruct (release_pools_total cs ds st0 Hlen Hcs Hds) as [st1 ->].
    by eexists.
  - intros st'.
    destruct (zstd_mempool_cctx st) as [cs|] eqn:Ec; [|done].
    destruct (zstd_mempool_dctx st) as [ds|] eqn:Ed; [|done].
    destruct (release_pools cs ds st0) as [st1|] eqn:E; [|done].
    intros [= <-]. cbn.
    destruct (release_pools_spec _ _ _ _ E) as (Hf1 & (l & Hr1) & Hall).
    split; [done|]. split; [done|]. split; [congruence|]. split.
    + intros z Hz. rewrite Hr1. apply elem_of_app. left. by apply Hslab.
    + intros which slots p Hget Hp. apply Hall.
      destruct which; cbn in Hget; rewrite ?Ec, ?Ed in Hget;
        injection Hget as <-; tauto.
Qed.

Lemma mempool_alloc_frees_stale_witness :
  (5000, 64)
  ∈ released
      (snd (zstd_mempool_alloc mempool_cctx 100 500
              (State 1 (Fallback 0 None false)
                 (Some [Pool (Some 5000) 64 false 130]) None ∅ [] []))).
Proof.
  apply (mempool_alloc_frees_stale mempool_cctx 100 500
           (State 1 (Fallback 0 None false)
              (Some [Pool (Some 5000) 64 false 130]) None ∅ [] [])
           [Pool (Some 5000) 64 false 130] 0
           (Pool (Some 5000) 64 false 130) 5000
           (fst (zstd_mempool_alloc mempool_cctx 100 500
                   (State 1 (Fallback 0 None false)
                      (Some [Pool (Some 5000) 64 false 130]) None ∅ [] [])))).
  - reflexivity.
  - reflexivity.
  - reflexivity.
  - reflexivity.
  - reflexivity.
  - reflexivity.
  - reflexivity.
Defined.

Lemma dctx_alloc_never_null_witness :
  exists ptr st',
    zstd_dctx_alloc 100000 50
      (zstd_init (lib := run_codec) 4096 1 (boot_state [Some 1000]))
    = Some (Some ptr, st').
Proof.
  apply (dctx_alloc_never_null 100000 50
           (zstd_init (lib := run_codec) 4096 1 (boot_state [Some 1000]))
           1000); reflexivity.
Defined.

Lemma zstd_fini_releases_everything_witness :
  let st := State 1 (Fallback 4096 (Some 1000) false)
              (Some [Pool (Some 2000) 524 false 130])
              (Some [Pool None 0 false 0]) ∅ [] [] in
  is_Some (zstd_fini st)
  /\ (1000, 4096) ∈ released (default st (zstd_fini st))
  /\ (2000, 524) ∈ released (default st (zstd_fini st)).
Proof.
  intros st.
  destruct (zstd_fini_releases_everything st) as [Htotal Hdone].
  split.
  - apply (Htotal [Pool (Some 2000) 524 false 130] [Pool None 0 false 0]);
      try reflexivity; repeat constructor.
  - destruct (Hdone (default st (zstd_fini st)) eq_refl)
      as (_ & _ & _ & Hslab & Hslots).
    split; [by apply Hslab|].
    apply (Hslots mempool_cctx [Pool (Some 2000) 524 false 130]
             (Pool (Some 2000) 524 false 130)); try reflexivity.
    apply list_elem_of_here.
Defined.

Lemma release_pools_all_empty n st :
  release_pools (replicate n (Pool None 0 false 0))
    (replicate n (Pool None 0 false 0)) st = Some st.
Proof. induction n as [|n IH]; [done|]. simpl. exact IH. Qed.

Section InitFini.
Context {lib : ZSTD_lib}.
Variable PAGESIZE : Z.
Variable boot_ncpus : Z.

(** X20: [zstd_fini] right after [zstd_init], with no allocation between
    them.  For every processor count and whatever the heap answered to the
    request for the slab, [zstd_fini] returns: [zstd_init] leaves both slot
    arrays in place, equally long, with no barrier held.  The slab, when
    there is one, is handed to [kmem_free] with the size it was requested
    with, no header is left at its address, and both array pointers are
    NULL again. *)
Theorem fini_after_init h :
  exists st',
    zstd_fini (zstd_init PAGESIZE boot_ncpus (boot_state h)) = Some st'
    /\ zstd_mempool_cctx st' = None
    /\ zstd_mempool_dctx st' = None
    /\ pool_count st' = boot_ncpus * 4
    /\ forall z h',
        h = Some z :: h' ->
        (z, P2ROUNDUP (ZSTD_estimateDCtxSize + sizeof_zstd_kmem) PAGESIZE)
        ∈ released st'
        /\ kmem st' !! z = None.
Proof.
  unfold zstd_fini, zstd_mempool_deinit, zstd_init, zstd_meminit,
    create_fallback_mem, vmem_alloc, zstd_mempool_init, ZSTD_POOL_MAX,
    boot_state.
  cbn [heap pool_count zstd_dctx_fallback zstd_mempool_cctx zstd_mempool_dctx
         kmem released].
  destruct h as [|[z|] h']; unfold set_kmem, set_fallback, kmem_free;
    cbn [heap pool_count zstd_dctx_fallback zstd_mempool_cctx
           zstd_mempool_dctx kmem released fallback_mem mem_size];
    rewrite release_pools_all_empty; eexists; (split; [reflexivity|]);
    cbn [heap pool_count zstd_dctx_fallback zstd_mempool_cctx
           zstd_mempool_dctx kmem released];
    (split; [done|]); (split; [done|]); (split; [done|]);
    intros z' h'' Hh; try discriminate Hh.
  injection Hh as <- _. split; [apply list_elem_of_here|].
  apply lookup_delete_eq.
Qed.

End InitFini.

(** One processor, page size 4096, the slab at address 1000: [zstd_fini]
    returns and the slab goes back with its 4096 bytes. *)
Lemma fini_after_init_witness :
  exists st',
    zstd_fini (zstd_init (lib := run_codec) 4096 1 (boot_state [Some 1000]))
    = Some st'
    /\ (1000, 4096) ∈ released st'
    /\ kmem st' !! 1000 = None
    /\ zstd_mempool_cctx st' = None
    /\ zstd_mempool_dctx st' = None.
Proof.
  destruct (fini_after_init (lib := run_codec) 4096 1 [Some 1000])
    as (st' & Hrun & Hc & Hd & _ & Hslab).
  exists st'. split; [exact Hrun|].
  destruct (Hslab 1000 [] eq_refl) as [Hfreed Hgone].
  split; [exact Hfreed|]. split; [exact Hgone|]. split; [exact Hc|exact Hd].
Defined.
